(** * analyze_schema.py: the schema analyser of SQLite-Editor

    A shallow embedding of [src/analyze_schema.py].  The script opens a
    SQLite database through Python's [sqlite3] module, lists the tables of
    the schema catalog, asks [PRAGMA foreign_key_list] for each of them,
    and returns a dictionary that the entry point prints as JSON.

    The development has three layers:
    - the Python values, exceptions and the state-and-exception monad the
      function runs in, over an arbitrary implementation of the [sqlite3]
      interface ([Class Sqlite3]); every call of the interface is recorded
      in a log, so that statements can speak about the calls of a run;
    - [analyze_database_schema] and the entry point, transcribed from the
      source, with the properties that hold whatever the database engine
      answers;
    - [Module Engine], a small model of the documented behaviour of
      [sqlite3] on a file system, used for the statements that depend on
      what the engine does with a given file. *)

From Stdlib Require Import ZArith Ascii String List Lia.
From stdpp Require Import base option list strings pretty gmap.

Local Set Warnings "-register-all".
Local Open Scope Z_scope.
Local Open Scope string_scope.
Local Open Scope list_scope.

(** ** Python values *)

(** The values a row of a [sqlite3] cursor holds for the two statements the
    analyser runs: [sqlite_master.name] and [sqlite_master.sql] are TEXT or
    NULL, and the columns of [PRAGMA foreign_key_list] are INTEGER, TEXT or
    NULL.  Characters of a [string] stand for the code points 0..255. *)
Inductive SqlVal : Type :=
| SNull
| SInt (n : Z)
| SText (s : string).

(** A row is a Python tuple. *)
Definition Row : Type := list SqlVal.

(** The Python objects the analyser builds: [None], [int], [str], [list]
    and [dict].  A [dict] keeps its items in insertion order. *)
Inductive PyVal : Type :=
| PNone
| PInt (n : Z)
| PStr (s : string)
| PList (items : list PyVal)
| PDict (items : list (string * PyVal)).

(** A value of a row, as the Python object it is. *)
Definition py (v : SqlVal) : PyVal :=
  match v with
  | SNull => PNone
  | SInt n => PInt n
  | SText s => PStr s
  end.

(** [format(v, '')], what an f-string does with [{v}]. *)
Definition format (v : SqlVal) : string :=
  match v with
  | SNull => "None"
  | SInt n => pretty n
  | SText s => s
  end.

(** [len(l)]. *)
Definition len {A : Type} (l : list A) : Z := Z.of_nat (length l).

(** [d.keys()], in insertion order. *)
Definition keys (d : list (string * PyVal)) : list string := map fst d.

(** [d.get(k)]. *)
Fixpoint get (k : string) (d : list (string * PyVal)) : option PyVal :=
  match d with
  | [] => None
  | (k', v) :: d' => if String.eqb k k' then Some v else get k d'
  end.

(** ** [json.dumps(v, indent=2)] *)

Definition newline : string := String (ascii_of_N 10) EmptyString.
Definition backslash : ascii := ascii_of_N 92.
Definition dquote : ascii := ascii_of_N 34.

Definition hex_digit (n : N) : ascii :=
  ascii_of_N (if (n <? 10)%N then 48 + n else 87 + n).

(** One character of a string, as [ensure_ascii] writes it. *)
Definition json_char (c : ascii) : string :=
  let n := N_of_ascii c in
  let esc (x : string) := String backslash x in
  if (n =? 34)%N then esc (String dquote EmptyString)
  else if (n =? 92)%N then esc (String backslash EmptyString)
  else if (n =? 10)%N then esc "n"
  else if (n =? 13)%N then esc "r"
  else if (n =? 9)%N then esc "t"
  else if (n =? 8)%N then esc "b"
  else if (n =? 12)%N then esc "f"
  else if ((n <? 32) || (126 <? n))%N
       then esc ("u00" +:+ String (hex_digit (n / 16))
                             (String (hex_digit (n mod 16)) EmptyString))
  else String c EmptyString.

Fixpoint json_chars (s : string) : string :=
  match s with
  | EmptyString => EmptyString
  | String c s' => json_char c +:+ json_chars s'
  end.

Definition json_string (s : string) : string :=
  String dquote (json_chars s +:+ String dquote EmptyString).

Fixpoint spaces (n : nat) : string :=
  match n with
  | O => EmptyString
  | S n' => String " " (spaces n')
  end.

(** The line break and indentation before an item at nesting [level]. *)
Definition newline_indent (level : nat) : string :=
  newline +:+ spaces (2 * level).

Fixpoint join (sep : string) (parts : list string) : string :=
  match parts with
  | [] => EmptyString
  | [x] => x
  | x :: rest => x +:+ sep +:+ join sep rest
  end.

Fixpoint dumps (level : nat) (v : PyVal) : string :=
  match v with
  | PNone => "null"
  | PInt n => pretty n
  | PStr s => json_string s
  | PList [] => "[]"
  | PList items =>
      "[" +:+ newline_indent (S level)
          +:+ join ("," +:+ newline_indent (S level))
                   (map (dumps (S level)) items)
          +:+ newline_indent level +:+ "]"
  | PDict [] => "{}"
  | PDict items =>
      "{" +:+ newline_indent (S level)
          +:+ join ("," +:+ newline_indent (S level))
                   (map (fun kv => json_string (fst kv) +:+ ": "
                                     +:+ dumps (S level) (snd kv)) items)
          +:+ newline_indent level +:+ "}"
  end.

Definition json_dumps_indent2 (v : PyVal) : string := dumps 0 v.

(** ** Exceptions *)

(** The classes of [Exception] that occur: those of the [sqlite3] module
    (PEP 249) and the built-in ones the analyser's own tuple operations
    raise.  All of them derive from [Exception]. *)
Inductive ExcClass : Type :=
| SqliteWarning
| InterfaceError
| DatabaseError
| DataError
| OperationalError
| IntegrityError
| InternalError
| ProgrammingError
| NotSupportedError
| ValueError
| IndexError
| TypeError.

Record Exception : Type := mkException {
  exc_class : ExcClass;
  exc_msg : string
}.

(** [str(e)] for an exception built with one message argument. *)
Definition str (e : Exception) : string := exc_msg e.

(** The outcome of evaluating a piece of Python. *)
Inductive Res (A : Type) : Type :=
| Ok (a : A)
| Raised (e : Exception).
Arguments Ok {A} a.
Arguments Raised {A} e.

(** ** The log of [sqlite3] calls *)

Inductive Call : Type :=
| CConnect (db_path : string)
| CCursor
| CExecute (sql : string)
| CFetchall
| CClose.

(** What a call that returned handed back: rows for [fetchall], nothing the
    log keeps for the others. *)
Inductive Answer : Type :=
| Done
| Rows (rows : list Row).

Record Event : Type := mkEvent {
  ev_call : Call;
  ev_res : Res Answer
}.

Definition failed (ev : Event) : bool :=
  match ev_res ev with
  | Raised _ => true
  | Ok _ => false
  end.

(** The number of [sqlite3.connect] calls of a trace. *)
Fixpoint connects (evs : list Event) : nat :=
  match evs with
  | [] => 0%nat
  | mkEvent (CConnect _) _ :: evs' => S (connects evs')
  | _ :: evs' => connects evs'
  end.

(** ** The [sqlite3] interface *)

(** The part of the module the analyser uses.  [World] is everything a call
    can read or change: the file system and the state of the connections
    and cursors.  A call returns or raises an [Exception]. *)
Class Sqlite3 : Type := {
  World : Type;
  Connection : Type;
  Cursor : Type;
  sqlite3_connect : string -> World -> Res Connection * World;
  connection_cursor : Connection -> World -> Res Cursor * World;
  cursor_execute : Cursor -> string -> World -> Res unit * World;
  cursor_fetchall : Cursor -> World -> Res (list Row) * World;
  connection_close : Connection -> World -> Res unit * World
}.

(** ** The monad of Python code *)

Section Python.
Context {engine : Sqlite3}.

(** The state of a process: the world of the engine, the log of the calls
    made so far, and the text written to standard output. *)
Record State : Type := mkState {
  world : World;
  log : list Event;
  stdout : string
}.

Definition Py (A : Type) : Type := State -> Res A * State.

Definition ret {A : Type} (a : A) : Py A := fun s => (Ok a, s).

Definition raise {A : Type} (e : Exception) : Py A := fun s => (Raised e, s).

Definition bind {A B : Type} (m : Py A) (f : A -> Py B) : Py B :=
  fun s =>
    match m s with
    | (Ok a, s') => f a s'
    | (Raised e, s') => (Raised e, s')
    end.

(** [try: m except Exception as e: h e]. *)
Definition try_except {A : Type} (m : Py A) (h : Exception -> Py A) : Py A :=
  fun s =>
    match m s with
    | (Ok a, s') => (Ok a, s')
    | (Raised e, s') => h e s'
    end.

(** A call of the interface: run it on the world and log it. *)
Definition call {A : Type} (c : Call) (answer : A -> Answer)
    (op : World -> Res A * World) : Py A :=
  fun s =>
    let '(r, w') := op (world s) in
    let res := match r with
               | Ok a => Ok (answer a)
               | Raised e => Raised e
               end in
    (r, {| world := w'; log := log s ++ [mkEvent c res]; stdout := stdout s |}).

Definition connect (db_path : string) : Py Connection :=
  call (CConnect db_path) (fun _ => Done) (sqlite3_connect db_path).

Definition cursor (conn : Connection) : Py Cursor :=
  call CCursor (fun _ => Done) (connection_cursor conn).

Definition execute (cur : Cursor) (sql : string) : Py unit :=
  call (CExecute sql) (fun _ => Done) (cursor_execute cur sql).

Definition fetchall (cur : Cursor) : Py (list Row) :=
  call CFetchall Rows (cursor_fetchall cur).

Definition close (conn : Connection) : Py unit :=
  call CClose (fun _ => Done) (connection_close conn).

(** [print(text)]. *)
Definition print (text : string) : Py unit :=
  fun s =>
    (Ok tt, {| world := world s; log := log s;
               stdout := stdout s +:+ text +:+ newline |}).

End Python.

Declare Scope py_scope.
Delimit Scope py_scope with py.
Notation "'let*' x ':=' m 'in' k" := (bind m (fun x => k))
  (at level 10, x pattern, m at level 100, k at level 200) : py_scope.

(** ** The analyser *)

Section Analyzer.
Context {engine : Sqlite3}.
Local Open Scope py_scope.

(** [for x in xs: acc = body x acc], the shape of both loops: the body
    updates the list [foreign_keys]. *)
Fixpoint for_each {A S : Type} (xs : list A) (body : A -> S -> Py S) (acc : S)
    : Py S :=
  match xs with
  | [] => ret acc
  | x :: xs' => let* acc' := body x acc in for_each xs' body acc'
  end.

(** [table_name, table_sql = row]. *)
Definition unpack2 (row : Row) : Py (SqlVal * SqlVal) :=
  match row with
  | [a; b] => ret (a, b)
  | [] | [_] =>
      raise (mkException ValueError
               ("not enough values to unpack (expected 2, got "
                  +:+ pretty (length row) +:+ ")"))
  | _ => raise (mkException ValueError "too many values to unpack (expected 2)")
  end.

(** [fk[i]] on a tuple. *)
Definition subscript (fk : Row) (i : nat) : Py SqlVal :=
  match fk !! i with
  | Some v => ret v
  | None => raise (mkException IndexError "tuple index out of range")
  end.

(** [bool(l)] for a list. *)
Definition truthy {A : Type} (l : list A) : bool :=
  match l with
  | [] => false
  | _ :: _ => true
  end.

Definition catalog_query : string :=
  "SELECT name, sql FROM sqlite_master WHERE type='table'".

(** [f"PRAGMA foreign_key_list({table_name})"]. *)
Definition pragma_query (table_name : SqlVal) : string :=
  "PRAGMA foreign_key_list(" +:+ format table_name +:+ ")".

(** The dictionary appended for one row [fk] of the pragma; the items are
    evaluated in the order they are written. *)
Definition fk_dict (table_name : SqlVal) (fk : Row) : Py PyVal :=
  let* from_column := subscript fk 3 in
  let* to_table := subscript fk 2 in
  let* to_column := subscript fk 4 in
  ret (PDict [("table", py table_name);
              ("from_column", py from_column);
              ("to_table", py to_table);
              ("to_column", py to_column)]).

(** The body of the inner loop: [foreign_keys.append({...})]. *)
Definition append_fk (table_name : SqlVal) (fk : Row)
    (foreign_keys : list PyVal) : Py (list PyVal) :=
  let* d := fk_dict table_name fk in
  ret (foreign_keys ++ [d]).

(** The body of the outer loop. *)
Definition table_step (cur : Cursor) (row : Row) (foreign_keys : list PyVal)
    : Py (list PyVal) :=
  let* (table_name, table_sql) := unpack2 row in
  let* _ := execute cur (pragma_query table_name) in
  let* fk_info := fetchall cur in
  if truthy fk_info
  then for_each fk_info (append_fk table_name) foreign_keys
  else ret foreign_keys.

(** The [try] block. *)
Definition analyze_try (db_path : string) : Py PyVal :=
  let* conn := connect db_path in
  let* cur := cursor conn in
  let* _ := execute cur catalog_query in
  let* tables := fetchall cur in
  let* foreign_keys := for_each tables (table_step cur) [] in
  let table_count := len tables in
  let* _ := close conn in
  ret (PDict [("foreign_keys", PList foreign_keys);
              ("table_count", PInt table_count);
              ("found_fk_count", PInt (len foreign_keys))]).

Definition analyze_database_schema (db_path : string) : Py PyVal :=
  try_except (analyze_try db_path)
    (fun e => ret (PDict [("error", PStr (str e))])).

(** The entry point: [db_path = 'database.db'], analyse, print. *)
Definition main : Py unit :=
  let db_path := "database.db" in
  let* result := analyze_database_schema db_path in
  print (json_dumps_indent2 result).

End Analyzer.

(** ** What the specification calls things *)

(** The first component of a row of the catalog query: the table name. *)
Definition name_of_row (row : Row) : SqlVal := hd SNull row.

(** The [ForeignKeyRef] of the specification for the row [fk] that the
    pragma returned for the table [table_name]: the source column is
    [fk[3]], the referenced table [fk[2]], the referenced column [fk[4]]. *)
Definition foreign_key_ref (table_name : SqlVal) (fk : Row) : PyVal :=
  PDict [("table", py table_name);
         ("from_column", py (nth 3 fk SNull));
         ("to_table", py (nth 2 fk SNull));
         ("to_column", py (nth 4 fk SNull))].

(** One [ForeignKeyRef] per row, table after table: [tables] are the rows
    of the catalog query and [infos] the answers of the pragma, one per
    table. *)
Definition refs (tables : list Row) (infos : list (list Row)) : list PyVal :=
  concat (zip_with (fun row fk_info =>
                      map (foreign_key_ref (name_of_row row)) fk_info)
                   tables infos).

(** The success shape of [AnalysisResult]. *)
Definition success_result (foreign_keys : list PyVal) (table_count : Z) : PyVal :=
  PDict [("foreign_keys", PList foreign_keys);
         ("table_count", PInt table_count);
         ("found_fk_count", PInt (len foreign_keys))].

(** The failure shape of [AnalysisResult]. *)
Definition error_result (message : string) : PyVal :=
  PDict [("error", PStr message)].

(** [v[k]] when [v] is a dictionary with the key [k]. *)
Definition field (k : string) (v : PyVal) : option PyVal :=
  match v with
  | PDict d => get k d
  | _ => None
  end.

Definition has_keys (ks : list string) (v : PyVal) : Prop :=
  match v with
  | PDict d => keys d = ks
  | _ => False
  end.

Definition success_shape (v : PyVal) : Prop :=
  has_keys ["foreign_keys"; "table_count"; "found_fk_count"] v.

Definition error_shape (v : PyVal) : Prop :=
  has_keys ["error"] v.

(** The calls of one round of the outer loop that goes well. *)
Definition round_trace (row : Row) (fk_info : list Row) : list Event :=
  [mkEvent (CExecute (pragma_query (name_of_row row))) (Ok Done);
   mkEvent CFetchall (Ok (Rows fk_info))].

Definition loop_trace (tables : list Row) (infos : list (list Row)) : list Event :=
  concat (zip_with round_trace tables infos).

(** The calls of a run that goes well: the catalog query answered
    [tables], and the pragma answered [infos], table by table. *)
Definition success_trace (db_path : string) (tables : list Row)
    (infos : list (list Row)) : list Event :=
  [mkEvent (CConnect db_path) (Ok Done);
   mkEvent CCursor (Ok Done);
   mkEvent (CExecute catalog_query) (Ok Done);
   mkEvent CFetchall (Ok (Rows tables))]
  ++ loop_trace tables infos
  ++ [mkEvent CClose (Ok Done)].

(** No call but possibly the last one raised, and when the code raised
    after a call did, it raised the exception of that call. *)
Definition disciplined {A : Type} (evs : list Event) (r : Res A) : Prop :=
  match r with
  | Ok _ => Forall (fun ev => failed ev = false) evs
  | Raised e =>
      exists pre, Forall (fun ev => failed ev = false) pre /\
        (evs = pre \/ exists c, evs = pre ++ [mkEvent c (Raised e)])
  end.

(** The call of [close] that went well. *)
Definition close_ok : Event := mkEvent CClose (Ok Done).

(** [evs] follows [trace]: it is a beginning of [trace], or a beginning of
    it and then the failure of the call that comes next in [trace]. *)
Definition follows (trace evs : list Event) : Prop :=
  exists pre rest,
    trace = pre ++ rest /\
    (evs = pre \/
     exists c ok e rest',
       rest = mkEvent c ok :: rest' /\ evs = pre ++ [mkEvent c (Raised e)]).

(** The exception of [fk[i]] past the end of a tuple. *)
Definition index_error : Exception :=
  mkException IndexError "tuple index out of range".

(** The analyser can read a round: the row of the catalog is a pair and
    every row of the pragma has the columns 3, 2 and 4. *)
Definition readable_round (row : Row) (fk_info : list Row) : bool :=
  (length row =? 2)%nat && forallb (fun fk => (5 <=? length fk)%nat) fk_info.

(** The calls of a round when no call raises: none when the row of the
    catalog is no pair. *)
Definition round_calls (row : Row) (fk_info : list Row) : list Event :=
  if (length row =? 2)%nat then round_trace row fk_info else [].

(** The calls of the outer loop when no call raises: round after round,
    up to and including the first round the analyser cannot read. *)
Fixpoint loop_calls (tables : list Row) (infos : list (list Row)) : list Event :=
  match tables, infos with
  | row :: tables', fk_info :: infos' =>
      round_calls row fk_info
        ++ (if readable_round row fk_info then loop_calls tables' infos' else [])
  | _, _ => []
  end.

(** The analyser can read every round. *)
Fixpoint readable (tables : list Row) (infos : list (list Row)) : bool :=
  match tables, infos with
  | row :: tables', fk_info :: infos' =>
      readable_round row fk_info && readable tables' infos'
  | _, _ => true
  end.

(** The calls of a run in which no call raises, when the catalog query
    answers [tables] and the pragma [infos]: [close] is called when every
    round could be read. *)
Definition expected_calls (db_path : string) (tables : list Row)
    (infos : list (list Row)) : list Event :=
  [mkEvent (CConnect db_path) (Ok Done);
   mkEvent CCursor (Ok Done);
   mkEvent (CExecute catalog_query) (Ok Done);
   mkEvent CFetchall (Ok (Rows tables))]
  ++ loop_calls tables infos
  ++ (if readable tables infos then [close_ok] else []).

(** A piece of code whose calls are [trace] when none raises, and which
    then returns when [complete] and raises by itself otherwise: either it
    made these calls, or it made a beginning of them, the call that comes
    next raised [e], and it raised [e]. *)
Definition outcome_of {A : Type} (trace : list Event) (complete : bool)
    (evs : list Event) (r : Res A) : Prop :=
  (evs = trace /\
   if complete then exists a, r = Ok a else exists e, r = Raised e) \/
  (exists pre c ok rest e,
     trace = pre ++ mkEvent c ok :: rest /\
     evs = pre ++ [mkEvent c (Raised e)] /\
     r = Raised e).

(** A Python object that is [None], an [int] or a [str]. *)
Definition scalar (v : PyVal) : Prop :=
  match v with
  | PNone | PInt _ | PStr _ => True
  | PList _ | PDict _ => False
  end.

(** The keys of a [ForeignKeyRef], in the order the code writes them. *)
Definition ref_keys : list string :=
  ["table"; "from_column"; "to_table"; "to_column"].

(** The sum of the lengths of the answers of the pragma. *)
Definition total_rows (infos : list (list Row)) : Z :=
  fold_right (fun fk_info n => len fk_info + n) 0 infos.

(** ** A model of [sqlite3]

    What the [sqlite3] module is documented to do for the calls the
    analyser makes, on a file system whose database files are given by
    their schema.  The statements below that depend on the engine (what
    happens with a missing file, with a file that is no database, with a
    table name that is no SQL name) are about this model. *)

Module Engine.

(** *** Schemas *)

(** One row of [PRAGMA foreign_key_list]:
    [(id, seq, table, from, to, on_update, on_delete, match)].  [to] is
    NULL when the constraint names no column of the parent table. *)
Record ForeignKey : Type := mkForeignKey {
  fk_id : Z;
  fk_seq : Z;
  fk_table : string;
  fk_from : string;
  fk_to : option string;
  fk_on_update : string;
  fk_on_delete : string;
  fk_match : string
}.

Definition fk_row (k : ForeignKey) : Row :=
  [SInt (fk_id k); SInt (fk_seq k); SText (fk_table k); SText (fk_from k);
   match fk_to k with Some c => SText c | None => SNull end;
   SText (fk_on_update k); SText (fk_on_delete k); SText (fk_match k)].

(** The [type] column of [sqlite_master]. *)
Inductive Kind : Type := KTable | KIndex | KView | KTrigger.

(** An entry of [sqlite_master]; for a table, [e_fks] are the rows the
    pragma reports for it, in the order it reports them. *)
Record Entry : Type := mkEntry {
  e_kind : Kind;
  e_name : string;
  e_sql : option string;
  e_fks : list ForeignKey
}.

(** A database: its catalog, in the order a scan of it returns. *)
Definition Schema : Type := list Entry.

Definition is_table (e : Entry) : bool :=
  match e_kind e with
  | KTable => true
  | _ => false
  end.

(** What a path of the file system holds, as SQLite reads it on unix.  A
    path the map does not bind is a file that does not exist in a directory
    where it can be created.  A file of length zero, and a file of one
    byte, which the unix layer of SQLite reports as empty, are the database
    with the empty catalog.  [NotADatabase] is a file of two bytes or more
    whose first page SQLite does not recognise as the header of a
    database.  The model has no journal and no write-ahead log: the
    recovery or the checkpoint that reading a database can run, and that
    rewrites its file, is outside it. *)
Inductive Node : Type :=
| Unopenable            (* a directory, or a path that cannot be opened or
                           created: missing directory, no permission *)
| NotADatabase          (* two bytes or more, no valid header of SQLite *)
| Database (db : Schema).

(** The names that [sqlite3.connect] reads as the name of a file: not the
    empty name (a private temporary database), not [:memory:] (a private
    database in memory), and no name that starts with [file:] (a URI,
    where the library is built to read them).  For the other names SQLite
    does not look at the file of that name; the model describes machines
    through the names of files only. *)
Definition plain_file_name (db_path : string) : Prop :=
  (db_path <> EmptyString) /\
  (db_path <> ":memory:") /\
  (forall rest : string, db_path <> "file:" +:+ rest).

(** *** The tokens of a statement *)

Definition code (c : ascii) : N := N_of_ascii c.

Definition is_space (c : ascii) : bool :=
  match code c with
  | 9 | 10 | 12 | 13 | 32 => true
  | _ => false
  end%N.

Definition is_digit (c : ascii) : bool :=
  ((48 <=? code c) && (code c <=? 57))%N.

Definition is_id_start (c : ascii) : bool :=
  (((65 <=? code c) && (code c <=? 90))
   || ((97 <=? code c) && (code c <=? 122))
   || (code c =? 95) || (128 <=? code c))%N.

Definition is_id_char (c : ascii) : bool :=
  (is_id_start c || is_digit c || (code c =? 36))%N.

Definition to_lower (c : ascii) : ascii :=
  if ((65 <=? code c) && (code c <=? 90))%N
  then ascii_of_N (code c + 32)
  else c.

Fixpoint lower (s : string) : string :=
  match s with
  | EmptyString => EmptyString
  | String c s' => String (to_lower c) (lower s')
  end.

Definition quoted (s : string) : string :=
  String dquote (s +:+ String dquote EmptyString).

Definition snoc (s : string) (c : ascii) : string := s +:+ String c EmptyString.

(** A token with its text as written.  [TQuoted] is a quoted identifier or
    a string literal, with the name it denotes.  Comments, signed,
    floating-point and hexadecimal literals, blob literals and bind
    parameters are outside the model. *)
Inductive Token : Type :=
| TWord (text : string)
| TQuoted (text name : string)
| TNumber (text : string)
| TPunct (c : ascii)
| TIllegal (text : string).

Inductive Mode : Type :=
| Idle
| InWord (text : string)
| InNumber (text : string)
| InBad (text : string)
| InQuote (close : ascii) (text name : string)
| AfterQuote (close : ascii) (text name : string).

Definition start (c : ascii) : list Token * Mode :=
  if is_space c then ([], Idle)
  else if is_id_start c then ([], InWord (String c EmptyString))
  else if is_digit c then ([], InNumber (String c EmptyString))
  else if Ascii.eqb c "'"%char || Ascii.eqb c dquote || Ascii.eqb c "`"%char
       then ([], InQuote c (String c EmptyString) EmptyString)
  else if Ascii.eqb c "["%char
       then ([], InQuote "]"%char (String c EmptyString) EmptyString)
  else ([TPunct c], Idle).

Definition step (m : Mode) (c : ascii) : list Token * Mode :=
  match m with
  | Idle => start c
  | InWord text =>
      if is_id_char c then ([], InWord (snoc text c))
      else let '(out, m') := start c in (TWord text :: out, m')
  | InNumber text =>
      if is_digit c then ([], InNumber (snoc text c))
      else if is_id_char c then ([], InBad (snoc text c))
      else let '(out, m') := start c in (TNumber text :: out, m')
  | InBad text =>
      if is_id_char c then ([], InBad (snoc text c))
      else let '(out, m') := start c in (TIllegal text :: out, m')
  | InQuote close text name =>
      if Ascii.eqb c close
      then if Ascii.eqb close "]"%char
           then ([TQuoted (snoc text c) name], Idle)
           else ([], AfterQuote close (snoc text c) name)
      else ([], InQuote close (snoc text c) (snoc name c))
  | AfterQuote close text name =>
      if Ascii.eqb c close
      then ([], InQuote close (snoc text c) (snoc name c))
      else let '(out, m') := start c in (TQuoted text name :: out, m')
  end.

Definition flush (m : Mode) : list Token :=
  match m with
  | Idle => []
  | InWord text => [TWord text]
  | InNumber text => [TNumber text]
  | InBad text => [TIllegal text]
  | InQuote _ text _ => [TIllegal text]
  | AfterQuote _ text name => [TQuoted text name]
  end.

Fixpoint lex (m : Mode) (s : string) : list Token :=
  match s with
  | EmptyString => flush m
  | String c s' => let '(out, m') := step m c in out ++ lex m' s'
  end.

Definition tokens (s : string) : list Token := lex Idle s.

Definition token_text (t : Token) : string :=
  match t with
  | TWord text | TQuoted text _ | TNumber text | TIllegal text => text
  | TPunct c => String c EmptyString
  end.

(** The keywords of SQLite's grammar that cannot stand for a name in the
    argument of a pragma ([ON], [DELETE] and [DEFAULT] can). *)
Definition reserved : list string :=
  ["add"; "all"; "alter"; "and"; "as"; "autoincrement"; "between"; "case";
   "check"; "collate"; "commit"; "constraint"; "create"; "deferrable";
   "distinct"; "drop"; "else"; "escape"; "except"; "exists"; "foreign";
   "from"; "group"; "having"; "in"; "index"; "insert"; "intersect"; "into";
   "is"; "isnull"; "join"; "limit"; "not"; "nothing"; "notnull"; "null";
   "or"; "order"; "primary"; "references"; "returning"; "select"; "set";
   "table"; "then"; "to"; "transaction"; "union"; "unique"; "update";
   "using"; "values"; "when"; "where"].

Definition is_reserved (word : string) : bool :=
  existsb (String.eqb (lower word)) reserved.

(** The name a token denotes where the grammar wants the argument of a
    pragma, if it denotes one. *)
Definition name_of (t : Token) : option string :=
  match t with
  | TWord text => if is_reserved text then None else Some text
  | TQuoted _ name => Some name
  | TNumber text => Some text
  | TPunct _ | TIllegal _ => None
  end.

Definition syntax_error (t : Token) : Exception :=
  match t with
  | TIllegal text =>
      mkException OperationalError ("unrecognized token: " +:+ quoted text)
  | _ =>
      mkException OperationalError
        ("near " +:+ quoted (token_text t) +:+ ": syntax error")
  end.

Definition incomplete_input : Exception :=
  mkException OperationalError "incomplete input".

(** The parse of what follows [PRAGMA foreign_key_list(]: a name, the
    closing parenthesis, and the end of the statement.  The error is the
    one of the first token that does not fit. *)
Definition pragma_argument (rest : string) : Res string :=
  match tokens rest with
  | [] => Raised incomplete_input
  | t :: ts =>
      match name_of t with
      | None => Raised (syntax_error t)
      | Some name =>
          match ts with
          | [] => Raised incomplete_input
          | TPunct ")" :: [] => Ok name
          | TPunct ")" :: t' :: _ => Raised (syntax_error t')
          | t' :: _ => Raised (syntax_error t')
          end
      end
  end.

(** [s] without the prefix [p], if it starts with it. *)
Fixpoint strip_prefix (p s : string) : option string :=
  match p, s with
  | EmptyString, _ => Some s
  | String a p', String b s' => if Ascii.eqb a b then strip_prefix p' s' else None
  | String _ _, EmptyString => None
  end.

(** *** The two statements *)

(** The [(name, sql)] of an entry of the catalog. *)
Definition row_of (e : Entry) : Row :=
  [SText (e_name e); match e_sql e with Some q => SText q | None => SNull end].

(** The entries of kind table, in catalog order. *)
Definition tables_of (db : Schema) : list Entry := List.filter is_table db.

(** [SELECT name, sql FROM sqlite_master WHERE type='table']. *)
Definition select_tables (db : Schema) : list Row := map row_of (tables_of db).

(** [PRAGMA foreign_key_list(name)]: the rows of the table of that name,
    compared without regard to case; no row when there is no such table. *)
Definition foreign_key_list (db : Schema) (name : string) : list Row :=
  match List.find (fun e => is_table e && String.eqb (lower (e_name e)) (lower name)) db with
  | Some e => map fk_row (e_fks e)
  | None => []
  end.

(** The rows a statement yields on a database, for the two statements of
    the model. *)
Definition run_sql (db : Schema) (sql : string) : Res (list Row) :=
  if String.eqb sql catalog_query then Ok (select_tables db)
  else
    match strip_prefix "PRAGMA foreign_key_list(" sql with
    | Some rest =>
        match pragma_argument rest with
        | Ok name => Ok (foreign_key_list db name)
        | Raised e => Raised e
        end
    | None => Raised (mkException NotSupportedError "statement outside the model")
    end.

(** *** Connections and cursors *)

(** The machine the process runs on: the files, the connections opened so
    far (the path each was opened on, and whether it is still open) and the
    cursors (the connection of each, and the rows it still holds).  A
    connection or a cursor is its index in these tables. *)
Record Host : Type := mkHost {
  files : gmap string Node;
  connections : list (string * bool);
  cursors : list (nat * list Row)
}.

Definition cannot_open : Exception :=
  mkException OperationalError "unable to open database file".

Definition not_a_database : Exception :=
  mkException DatabaseError "file is not a database".

Definition closed_database : Exception :=
  mkException ProgrammingError "Cannot operate on a closed database.".

(** [sqlite3.connect(db_path)]: a missing file is created, empty; a file
    is not read before the first statement. *)
Definition open_database (db_path : string) (h : Host) : Res nat * Host :=
  let conn := length (connections h) in
  match files h !! db_path with
  | Some Unopenable => (Raised cannot_open, h)
  | Some _ =>
      (Ok conn, {| files := files h;
                   connections := connections h ++ [(db_path, true)];
                   cursors := cursors h |})
  | None =>
      (Ok conn, {| files := <[db_path := Database []]> (files h);
                   connections := connections h ++ [(db_path, true)];
                   cursors := cursors h |})
  end.

(** The path of an open connection. *)
Definition open_path (h : Host) (conn : nat) : option string :=
  match connections h !! conn with
  | Some (db_path, true) => Some db_path
  | _ => None
  end.

(** [conn.cursor()]. *)
Definition new_cursor (conn : nat) (h : Host) : Res nat * Host :=
  match open_path h conn with
  | Some _ =>
      (Ok (length (cursors h)),
       {| files := files h;
          connections := connections h;
          cursors := cursors h ++ [(conn, [])] |})
  | None => (Raised closed_database, h)
  end.

(** The database a cursor reads, or the error of reaching it. *)
Definition database_of (h : Host) (cur : nat) : Res (nat * Schema) :=
  match cursors h !! cur with
  | None => Raised closed_database
  | Some (conn, _) =>
      match open_path h conn with
      | None => Raised closed_database
      | Some db_path =>
          match files h !! db_path with
          | Some (Database db) => Ok (conn, db)
          | Some NotADatabase => Raised not_a_database
          | Some Unopenable | None => Raised cannot_open
          end
      end
  end.

(** The machine once the cursor [cur] of [conn] holds [rows]. *)
Definition store (cur conn : nat) (rows : list Row) (h : Host) : Host :=
  {| files := files h;
     connections := connections h;
     cursors := <[cur := (conn, rows)]> (cursors h) |}.

(** [cursor.execute(sql)]: the rows wait in the cursor. *)
Definition exec (cur : nat) (sql : string) (h : Host) : Res unit * Host :=
  match database_of h cur with
  | Raised e => (Raised e, h)
  | Ok (conn, db) =>
      match run_sql db sql with
      | Raised e => (Raised e, h)
      | Ok rows => (Ok tt, store cur conn rows h)
      end
  end.

(** [cursor.fetchall()]: the rows that wait, which leave the cursor. *)
Definition fetch (cur : nat) (h : Host) : Res (list Row) * Host :=
  match cursors h !! cur with
  | None => (Raised closed_database, h)
  | Some (conn, rows) =>
      match open_path h conn with
      | None => (Raised closed_database, h)
      | Some _ => (Ok rows, store cur conn [] h)
      end
  end.

(** [conn.close()]. *)
Definition close_connection (conn : nat) (h : Host) : Res unit * Host :=
  match connections h !! conn with
  | Some (db_path, _) =>
      (Ok tt, {| files := files h;
                 connections := <[conn := (db_path, false)]> (connections h);
                 cursors := cursors h |})
  | None => (Ok tt, h)
  end.

#[export] Instance sqlite3 : Sqlite3 := {|
  World := Host;
  Connection := nat;
  Cursor := nat;
  sqlite3_connect := open_database;
  connection_cursor := new_cursor;
  cursor_execute := exec;
  cursor_fetchall := fetch;
  connection_close := close_connection
|}.

(** A machine with the given files and no connection yet. *)
Definition boot (fs : gmap string Node) : Host :=
  {| files := fs; connections := []; cursors := [] |}.

(** A process on a machine: it starts with an empty log and has written
    nothing. *)
Definition fresh (h : Host) : State :=
  {| world := h; log := []; stdout := EmptyString |}.

(** Whether a connection of the machine is open. *)
Definition is_open (h : Host) (conn : nat) : bool :=
  match open_path h conn with
  | Some _ => true
  | None => false
  end.

(** Running the script: what it prints and the machine it leaves. *)
Definition run_script (h : Host) : string * Host :=
  let '(_, s) := main (fresh h) in (stdout s, world s).

(** *** The analysis as a function of the file *)

(** The entries gathered from the tables [tables] of [db] after [acc], or
    the error of the first table whose name the pragma does not take. *)
Fixpoint gather (db : Schema) (tables : list Entry) (acc : list PyVal)
    : Res (list PyVal) :=
  match tables with
  | [] => Ok acc
  | e :: rest =>
      match pragma_argument (e_name e +:+ ")") with
      | Raised err => Raised err
      | Ok name =>
          gather db rest
            (acc ++ map (foreign_key_ref (SText (e_name e)))
                        (foreign_key_list db name))
      end
  end.

Definition answer (node : option Node) : PyVal :=
  match node with
  | Some Unopenable => error_result (str cannot_open)
  | Some NotADatabase => error_result (str not_a_database)
  | Some (Database db) =>
      match gather db (tables_of db) [] with
      | Ok foreign_keys => success_result foreign_keys (len (tables_of db))
      | Raised e => error_result (str e)
      end
  | None => success_result [] 0
  end.

(** The connection [conn] is open on [db_path] and [cur] is a cursor of
    it. *)
Definition connected (db_path : string) (conn cur : nat) (h : Host) : Prop :=
  connections h !! conn = Some (db_path, true) /\
  exists rows, cursors h !! cur = Some (conn, rows).

(** The files once [db_path] has been opened. *)
Definition opened (db_path : string) (fs : gmap string Node) : gmap string Node :=
  match fs !! db_path with
  | None => <[db_path := Database []]> fs
  | Some _ => fs
  end.





(** *** Example machines *)

(** The machine whose only file is the database [db] at [database.db]. *)
Definition holding (db : Schema) : Host :=
  boot {[ "database.db" := Database db ]}.

(** Two tables; [orders.customer_id] references [customers(id)]. *)
Definition shop : Schema :=
  [mkEntry KTable "customers"
     (Some "CREATE TABLE customers (id INTEGER PRIMARY KEY, name TEXT)") [];
   mkEntry KTable "orders"
     (Some "CREATE TABLE orders (id INTEGER PRIMARY KEY, customer_id INTEGER REFERENCES customers(id))")
     [mkForeignKey 0 0 "customers" "customer_id" (Some "id")
        "NO ACTION" "NO ACTION" "NONE"]].

(** The [ForeignKeyRef] of the foreign key of [orders]. *)
Definition orders_ref : PyVal :=
  PDict [("table", PStr "orders");
         ("from_column", PStr "customer_id");
         ("to_table", PStr "customers");
         ("to_column", PStr "id")].

(** The result expected on [shop]. *)
Definition shop_result : PyVal := success_result [orders_ref] 2.

(** One table, whose name has a space and starts with a keyword, and no
    foreign key. *)
Definition order_details : Schema :=
  [mkEntry KTable "Order Details"
     (Some "CREATE TABLE [Order Details] (OrderID INTEGER, ProductID INTEGER)")
     []].

(** One table, whose name has parentheses, and one index. *)
Definition stock : Schema :=
  [mkEntry KTable "stock(2024)"
     (Some "CREATE TABLE [stock(2024)] (item TEXT, quantity INTEGER)") [];
   mkEntry KIndex "stock_item"
     (Some "CREATE INDEX stock_item ON [stock(2024)] (item)") []].


(** A machine with a text file of some lines at [database.db]. *)
Definition with_text_file : Host :=
  boot {[ "database.db" := NotADatabase ]}.

(** A machine with no file at all. *)
Definition empty_disk : Host := boot ∅.

(** *** The error on a missing file, as the specification words it *)

(** The analyser answers the failure shape, with a message, for the path
    [db_path] when no file is there or the file there is no database. *)
Definition error_on_missing_or_foreign_file (db_path : string) (s : State) : Prop :=
  files (world s) !! db_path = None \/
  files (world s) !! db_path = Some NotADatabase ->
  exists message,
    fst (analyze_database_schema db_path s) = Ok (error_result message) /\
    message <> EmptyString /\
    field "table_count" (error_result message) = None /\
    field "foreign_keys" (error_result message) = None.

End Engine.

(** ** Specifications of runs *)

Section Runs.
Context {engine : Sqlite3}.

(** Whatever the state, [m] only appends calls to the log, writes
    nothing, and the calls it appends and its outcome satisfy [Q]. *)
Definition runs {A : Type} (m : Py A) (Q : list Event -> Res A -> Prop) : Prop :=
  forall s, exists evs,
    log (snd (m s)) = log s ++ evs /\
    stdout (snd (m s)) = stdout s /\
    Q evs (fst (m s)).

(** What a call of the interface appends. *)
Definition call_post {A : Type} (c : Call) (answer : A -> Answer)
    (evs : list Event) (r : Res A) : Prop :=
  evs = [mkEvent c match r with
                   | Ok a => Ok (answer a)
                   | Raised e => Raised e
                   end].

(** What one round of the outer loop does. *)
Definition round_post (row : Row) (acc : list PyVal)
    (evs : list Event) (r : Res (list PyVal)) : Prop :=
  connects evs = 0%nat /\
  disciplined evs r /\
  forall foreign_keys, r = Ok foreign_keys ->
    exists fk_info,
      evs = round_trace row fk_info /\
      foreign_keys = acc ++ map (foreign_key_ref (name_of_row row)) fk_info.

(** What the outer loop does on [tables], starting from [acc]. *)
Definition loop_post (tables : list Row) (acc : list PyVal)
    (evs : list Event) (r : Res (list PyVal)) : Prop :=
  connects evs = 0%nat /\
  disciplined evs r /\
  forall foreign_keys, r = Ok foreign_keys ->
    exists infos,
      length infos = length tables /\
      evs = loop_trace tables infos /\
      foreign_keys = acc ++ refs tables infos.

(** What the [try] block does. *)
Definition try_post (db_path : string) (evs : list Event) (r : Res PyVal) : Prop :=
  connects evs = 1%nat /\
  disciplined evs r /\
  forall v, r = Ok v ->
    exists tables infos,
      length infos = length tables /\
      evs = success_trace db_path tables infos /\
      v = success_result (refs tables infos) (len tables).

(** What [analyze_database_schema] does: it calls [sqlite3.connect] once
    and returns; either every call went well and the result is the success
    shape built from the answers, or the [try] block raised [e] and the
    result is the failure shape with [str(e)]. *)
Definition analyze_post (db_path : string) (evs : list Event) (r : Res PyVal) : Prop :=
  connects evs = 1%nat /\
  ((exists tables infos,
      length infos = length tables /\
      evs = success_trace db_path tables infos /\
      Forall (fun ev => failed ev = false) evs /\
      r = Ok (success_result (refs tables infos) (len tables))) \/
   (exists e,
      disciplined evs (@Raised PyVal e) /\
      r = Ok (error_result (str e)))).

(** The calls of one round of the outer loop, whatever its outcome: no
    [close]; the calls follow [round_trace]; and when the round goes well
    the row of the catalog had two columns and the rows of the pragma at
    least five. *)
Definition round_protocol (row : Row) (evs : list Event)
    (r : Res (list PyVal)) : Prop :=
  Forall (fun ev => ev_call ev <> CClose) evs /\
  (exists fk_info, follows (round_trace row fk_info) evs) /\
  forall foreign_keys, r = Ok foreign_keys ->
    length row = 2%nat /\
    exists fk_info,
      evs = round_trace row fk_info /\
      Forall (fun fk => (5 <= length fk)%nat) fk_info.

Definition loop_protocol (tables : list Row) (evs : list Event)
    (r : Res (list PyVal)) : Prop :=
  Forall (fun ev => ev_call ev <> CClose) evs /\
  (exists infos,
     length infos = length tables /\ follows (loop_trace tables infos) evs) /\
  forall foreign_keys, r = Ok foreign_keys ->
    Forall (fun row => length row = 2%nat) tables /\
    exists infos,
      length infos = length tables /\
      evs = loop_trace tables infos /\
      Forall (Forall (fun fk => (5 <= length fk)%nat)) infos.

Definition try_protocol (db_path : string) (evs : list Event)
    (r : Res PyVal) : Prop :=
  (exists tables infos,
     length infos = length tables /\
     follows (success_trace db_path tables infos) evs) /\
  (forall e, r = Raised e -> ~ In close_ok evs) /\
  forall v, r = Ok v ->
    exists tables infos,
      length infos = length tables /\
      evs = success_trace db_path tables infos /\
      Forall (fun row => length row = 2%nat) tables /\
      Forall (Forall (fun fk => (5 <= length fk)%nat)) infos.

End Runs.

(** * Properties *)

(** ** Rules for [runs] *)

Section RunRules.
Context {engine : Sqlite3}.

Lemma runs_ret {A : Type} (a : A) (Q : list Event -> Res A -> Prop) :
  Q [] (Ok a) -> runs (ret a) Q.
Proof.
  intros HQ s. exists []. simpl. rewrite app_nil_r. auto.
Qed.

Lemma runs_raise {A : Type} (e : Exception) (Q : list Event -> Res A -> Prop) :
  Q [] (Raised e) -> runs (raise e) Q.
Proof.
  intros HQ s. exists []. simpl. rewrite app_nil_r. auto.
Qed.

Lemma runs_call {A : Type} (c : Call) (answer : A -> Answer)
    (op : World -> Res A * World) :
  runs (call c answer op) (call_post c answer).
Proof.
  intros s. unfold call, call_post.
  destruct (op (world s)) as [r w']. simpl.
  eexists. repeat split; reflexivity.
Qed.

Lemma runs_weaken {A : Type} (m : Py A) (Q Q' : list Event -> Res A -> Prop) :
  runs m Q -> (forall evs r, Q evs r -> Q' evs r) -> runs m Q'.
Proof.
  intros Hm HQ s. destruct (Hm s) as (evs & Hlog & Hout & H).
  exists evs. auto.
Qed.

(** Sequencing: an exception of [m] is the outcome; a value of [m] is
    handed to [f], whose calls come after those of [m]. *)
Lemma runs_bind {A B : Type} (m : Py A) (f : A -> Py B)
    (Q1 : list Event -> Res A -> Prop) (Q : list Event -> Res B -> Prop) :
  runs m Q1 ->
  (forall evs1 e, Q1 evs1 (Raised e) -> Q evs1 (Raised e)) ->
  (forall evs1 a, Q1 evs1 (Ok a) ->
     runs (f a) (fun evs2 r => Q (evs1 ++ evs2) r)) ->
  runs (bind m f) Q.
Proof.
  intros Hm Hraise Hok s. unfold bind.
  destruct (Hm s) as (evs1 & Hlog1 & Hout1 & H1).
  destruct (m s) as [[a | e] s1]; simpl in *.
  - destruct (Hok evs1 a H1 s1) as (evs2 & Hlog2 & Hout2 & H2).
    exists (evs1 ++ evs2). rewrite Hlog2, Hlog1, Hout2, Hout1, app_assoc. auto.
  - exists evs1. auto.
Qed.

(** [try ... except Exception]: the handler runs after the calls of the
    block, on the exception the block raised. *)
Lemma runs_try_except {A : Type} (m : Py A) (h : Exception -> Py A)
    (Q1 Q : list Event -> Res A -> Prop) :
  runs m Q1 ->
  (forall evs1 a, Q1 evs1 (Ok a) -> Q evs1 (Ok a)) ->
  (forall evs1 e, Q1 evs1 (Raised e) ->
     runs (h e) (fun evs2 r => Q (evs1 ++ evs2) r)) ->
  runs (try_except m h) Q.
Proof.
  intros Hm Hok Hraise s. unfold try_except.
  destruct (Hm s) as (evs1 & Hlog1 & Hout1 & H1).
  destruct (m s) as [[a | e] s1]; simpl in *.
  - exists evs1. auto.
  - destruct (Hraise evs1 e H1 s1) as (evs2 & Hlog2 & Hout2 & H2).
    exists (evs1 ++ evs2). rewrite Hlog2, Hlog1, Hout2, Hout1, app_assoc. auto.
Qed.

(** *** Traces *)

Lemma connects_app (evs1 evs2 : list Event) :
  connects (evs1 ++ evs2) = (connects evs1 + connects evs2)%nat.
Proof.
  induction evs1 as [| [c r] evs1 IH]; simpl; [reflexivity |].
  destruct c; simpl; rewrite IH; reflexivity.
Qed.

Lemma disciplined_nil {A : Type} (r : Res A) : disciplined [] r.
Proof.
  destruct r as [a | e]; simpl; [constructor |].
  exists []. split; [constructor | left; reflexivity].
Qed.

(** Calls that went well may come before a disciplined trace. *)
Lemma disciplined_app {A B : Type} (evs1 evs2 : list Event) (a : A) (r : Res B) :
  disciplined evs1 (Ok a) -> disciplined evs2 r -> disciplined (evs1 ++ evs2) r.
Proof.
  simpl. intros H1 H2. destruct r as [b | e]; simpl in *.
  - apply Forall_app; auto.
  - destruct H2 as (pre & Hpre & Hevs). exists (evs1 ++ pre). split.
    + apply Forall_app; auto.
    + destruct Hevs as [-> | [c ->]]; [left; reflexivity |].
      right. exists c. rewrite app_assoc. reflexivity.
Qed.

End RunRules.

(** ** The loops *)

Section Loops.
Context {engine : Sqlite3}.

(** [fk_dict] touches neither the world nor the log; it builds the
    [ForeignKeyRef] of the row or raises. *)
Lemma fk_dict_run (table_name : SqlVal) (fk : Row) (s : State) :
  fk_dict table_name fk s = (Ok (foreign_key_ref table_name fk), s) \/
  exists e, fk_dict table_name fk s = (Raised e, s).
Proof.
  unfold fk_dict, foreign_key_ref, bind, subscript.
  destruct (fk !! 3%nat) as [v3 |] eqn:E3; simpl; [| right; eexists; reflexivity].
  destruct (fk !! 2%nat) as [v2 |] eqn:E2; simpl; [| right; eexists; reflexivity].
  destruct (fk !! 4%nat) as [v4 |] eqn:E4; simpl; [| right; eexists; reflexivity].
  left. unfold ret.
  rewrite (nth_lookup_Some _ _ SNull _ E3), (nth_lookup_Some _ _ SNull _ E2),
    (nth_lookup_Some _ _ SNull _ E4).
  reflexivity.
Qed.

Lemma append_fk_run (table_name : SqlVal) (fk : Row) (acc : list PyVal)
    (s : State) :
  append_fk table_name fk acc s
    = (Ok (acc ++ [foreign_key_ref table_name fk]), s) \/
  exists e, append_fk table_name fk acc s = (Raised e, s).
Proof.
  unfold append_fk, bind.
  destruct (fk_dict_run table_name fk s) as [H | [e H]]; rewrite H.
  - left. reflexivity.
  - right. eexists; reflexivity.
Qed.

(** The inner loop appends one [ForeignKeyRef] per row, in row order, or
    raises; it makes no call. *)
Lemma inner_loop_run (table_name : SqlVal) (fk_info : list Row) :
  forall (acc : list PyVal) (s : State),
    for_each fk_info (append_fk table_name) acc s
      = (Ok (acc ++ map (foreign_key_ref table_name) fk_info), s) \/
    exists e, for_each fk_info (append_fk table_name) acc s = (Raised e, s).
Proof.
  induction fk_info as [| fk rest IH]; intros acc s; simpl.
  - left. unfold ret. rewrite app_nil_r. reflexivity.
  - unfold bind.
    destruct (append_fk_run table_name fk acc s) as [H | [e H]]; rewrite H.
    + destruct (IH (acc ++ [foreign_key_ref table_name fk]) s) as [H' | [e H']];
        rewrite H'.
      * left. rewrite <- app_assoc. reflexivity.
      * right. eexists; reflexivity.
    + right. eexists; reflexivity.
Qed.

Lemma round_post_raise (row : Row) (acc : list PyVal) (evs : list Event)
    (e : Exception) :
  connects evs = 0%nat -> disciplined evs (@Raised unit e) ->
  round_post row acc evs (Raised e).
Proof. intros Hc Hd. repeat split; [assumption.. | discriminate]. Qed.

Lemma table_step_runs (cur : Cursor) (row : Row) (acc : list PyVal) :
  runs (table_step cur row acc) (round_post row acc).
Proof.
  intros s. unfold table_step, bind.
  assert (Hpure : forall e : Exception, exists evs,
            log s = log s ++ evs /\ stdout s = stdout s /\
            round_post row acc evs (Raised e)).
  { intros e. exists []. rewrite app_nil_r.
    split; [reflexivity |]. split; [reflexivity |].
    apply round_post_raise; [reflexivity | apply disciplined_nil]. }
  destruct row as [| table_name [| table_sql [| extra row]]];
    try (simpl; apply Hpure).
  clear Hpure. simpl. unfold execute, fetchall, call.
  destruct (cursor_execute cur (pragma_query table_name) (world s))
    as [[[] | e] w1]; simpl.
  - destruct (cursor_fetchall cur w1) as [[fk_info | e] w2]; simpl.
    + set (s2 := {| world := w2 |}).
      assert (Hcases :
        (if truthy fk_info
         then for_each fk_info (append_fk table_name) acc
         else ret acc) s2
        = (Ok (acc ++ map (foreign_key_ref table_name) fk_info), s2) \/
        exists e,
          (if truthy fk_info
           then for_each fk_info (append_fk table_name) acc
           else ret acc) s2 = (Raised e, s2)).
      { destruct fk_info as [| fk rest]; simpl truthy; cbv iota.
        - left. unfold ret. simpl. rewrite app_nil_r. reflexivity.
        - apply inner_loop_run. }
      destruct Hcases as [H | [e H]]; rewrite H; subst s2; simpl;
        eexists; rewrite <- app_assoc;
        (split; [reflexivity |]); (split; [reflexivity |]).
      * repeat split; [repeat constructor |].
        intros fks [= <-]. exists fk_info. split; reflexivity.
      * apply round_post_raise; [reflexivity |].
        eexists. split; [| left; reflexivity]. repeat constructor.
    + eexists; rewrite <- app_assoc;
        (split; [reflexivity |]); (split; [reflexivity |]).
      apply round_post_raise; [reflexivity |].
      exists [mkEvent (CExecute (pragma_query table_name)) (Ok Done)].
      split; [repeat constructor |]. right. exists CFetchall. reflexivity.
  - eexists. (split; [reflexivity |]); (split; [reflexivity |]).
    apply round_post_raise; [reflexivity |].
    exists []. split; [constructor |]. right. eexists. reflexivity.
Qed.

Lemma loop_runs (cur : Cursor) (tables : list Row) :
  forall acc : list PyVal,
    runs (for_each tables (table_step cur) acc) (loop_post tables acc).
Proof.
  induction tables as [| row tables IH]; intros acc; simpl.
  - apply runs_ret. unfold loop_post. repeat split; [constructor |].
    intros fks [= <-]. exists []. rewrite app_nil_r. repeat split.
  - apply runs_bind with (Q1 := round_post row acc).
    + apply table_step_runs.
    + intros evs1 e (Hc & Hd & _). repeat split; [assumption.. | discriminate].
    + intros evs1 fks1 (Hc1 & Hd1 & Hok1).
      destruct (Hok1 fks1 eq_refl) as (fk_info & Hevs1 & Hfks1).
      eapply runs_weaken; [apply (IH fks1) |].
      intros evs2 r (Hc2 & Hd2 & Hok2). split; [| split].
      * rewrite connects_app, Hc1, Hc2. reflexivity.
      * eapply disciplined_app; eassumption.
      * intros fks ->. destruct (Hok2 fks eq_refl) as (infos & Hlen & Hevs2 & Hfks).
        exists (fk_info :: infos). split; [simpl; congruence |].
        split; [rewrite Hevs1, Hevs2; reflexivity |].
        rewrite Hfks, Hfks1, <- app_assoc. reflexivity.
Qed.

End Loops.

(** ** The analyser on any engine *)

Section AnalyzerRuns.
Context {engine : Sqlite3}.

Lemma try_post_raise (db_path : string) (evs : list Event) (e : Exception) :
  connects evs = 1%nat -> disciplined evs (@Raised unit e) ->
  try_post db_path evs (Raised e).
Proof. intros Hc Hd. repeat split; [assumption.. | discriminate]. Qed.

Lemma analyze_try_runs (db_path : string) :
  runs (analyze_try db_path) (try_post db_path).
Proof.
  unfold analyze_try.
  eapply runs_bind; [apply runs_call | |].
  { intros evs1 e ->. apply try_post_raise; [reflexivity |].
    exists []. split; [constructor |]. right. eexists. reflexivity. }
  intros evs1 conn ->.
  eapply runs_bind; [apply runs_call | |].
  { intros evs2 e ->. apply try_post_raise; [reflexivity |].
    eexists. split; [| right; eexists; reflexivity]. repeat constructor. }
  intros evs2 cur ->.
  eapply runs_bind; [apply runs_call | |].
  { intros evs3 e ->. apply try_post_raise; [reflexivity |].
    eexists [_; _]. split; [| right; eexists; reflexivity]. repeat constructor. }
  intros evs3 [] ->.
  eapply runs_bind; [apply runs_call | |].
  { intros evs4 e ->. apply try_post_raise; [reflexivity |].
    eexists [_; _; _]. split; [| right; eexists; reflexivity].
    repeat constructor. }
  intros evs4 tables ->.
  eapply runs_bind; [apply (loop_runs cur tables []) | |].
  { intros evs5 e (Hc & Hd & _). apply try_post_raise.
    - simpl. rewrite Hc. reflexivity.
    - apply (disciplined_app [_; _; _; _] evs5 tt); [repeat constructor | exact Hd]. }
  intros evs5 foreign_keys (Hc & Hd & Hok).
  destruct (Hok foreign_keys eq_refl) as (infos & Hlen & -> & ->).
  eapply runs_bind; [apply runs_call | |].
  { intros evs6 e ->. apply try_post_raise.
    - simpl. rewrite connects_app, Hc. reflexivity.
    - exists ([mkEvent (CConnect db_path) (Ok Done); mkEvent CCursor (Ok Done);
               mkEvent (CExecute catalog_query) (Ok Done);
               mkEvent CFetchall (Ok (Rows tables))]
              ++ loop_trace tables infos).
      split; [| right; exists CClose; rewrite <- app_assoc; reflexivity].
      apply Forall_app. split; [repeat constructor | exact Hd]. }
  intros evs6 [] ->. apply runs_ret. split; [| split].
  - simpl. rewrite connects_app, Hc. reflexivity.
  - simpl. repeat (constructor; [reflexivity |]).
    apply Forall_app. split; [exact Hd | repeat constructor].
  - intros v [= <-]. exists tables, infos. split; [exact Hlen |]. split.
    + reflexivity.
    + reflexivity.
Qed.

Lemma analyze_runs (db_path : string) :
  runs (analyze_database_schema db_path) (analyze_post db_path).
Proof.
  unfold analyze_database_schema.
  eapply runs_try_except; [apply analyze_try_runs | |].
  - intros evs v (Hc & Hd & Hok). split; [exact Hc |]. left.
    destruct (Hok v eq_refl) as (tables & infos & Hlen & Hevs & ->).
    exists tables, infos. auto.
  - intros evs e (Hc & Hd & _). apply runs_ret. rewrite app_nil_r.
    split; [exact Hc |]. right. exists e. auto.
Qed.

(** A run of the analyser from a state: its result and the calls it made. *)
Lemma analyze_run (db_path : string) (s : State) :
  exists evs,
    log (snd (analyze_database_schema db_path s)) = log s ++ evs /\
    stdout (snd (analyze_database_schema db_path s)) = stdout s /\
    analyze_post db_path evs (fst (analyze_database_schema db_path s)).
Proof. apply analyze_runs. Qed.

End AnalyzerRuns.

(** ** Shape of the result *)

Section Shapes.
Context {engine : Sqlite3}.

(** A failed call among calls of which only the last may have failed is
    the last one. *)
Lemma failed_call_is_last (pre pre0 post : list Event) (ev ev0 : Event) :
  failed ev = true ->
  Forall (fun x => failed x = false) pre0 ->
  pre ++ ev :: post = pre0 ++ [ev0] ->
  post = [] /\ pre = pre0 /\ ev = ev0.
Proof.
  intros Hev Hpre0 Heq.
  induction post as [| last post' _] using rev_ind.
  - apply app_inj_tail in Heq. destruct Heq. auto.
  - exfalso.
    change (pre ++ ev :: post' ++ [last]) with (pre ++ (ev :: post') ++ [last]) in Heq.
    rewrite app_assoc in Heq. apply app_inj_tail in Heq. destruct Heq as [<- _].
    apply Forall_app in Hpre0. destruct Hpre0 as [_ Hpre0].
    inversion Hpre0; subst. congruence.
Qed.

Lemma no_failed_call (pre post : list Event) (ev : Event) :
  failed ev = true ->
  Forall (fun x => failed x = false) (pre ++ ev :: post) -> False.
Proof.
  intros Hev H. apply Forall_app in H. destruct H as [_ H].
  inversion H; subst. congruence.
Qed.

(** The outcome of a run, in the two cases of [analyze_post]. *)
Lemma analyze_result (db_path : string) (s : State) :
  exists evs,
    log (snd (analyze_database_schema db_path s)) = log s ++ evs /\
    ((exists tables infos,
        length infos = length tables /\
        evs = success_trace db_path tables infos /\
        fst (analyze_database_schema db_path s)
          = Ok (success_result (refs tables infos) (len tables))) \/
     (exists e,
        fst (analyze_database_schema db_path s) = Ok (error_result (str e)))).
Proof.
  destruct (analyze_run db_path s) as (evs & Hlog & _ & _ & H).
  exists evs. split; [exact Hlog |].
  destruct H as [(tables & infos & Hlen & Hevs & _ & Hr) | (e & _ & Hr)].
  - left. exists tables, infos. auto.
  - right. exists e. exact Hr.
Qed.

(** An entry of [refs] belongs to one of the tables. *)
Lemma refs_table (tables : list Row) :
  forall (infos : list (list Row)) (entry : PyVal),
    In entry (refs tables infos) ->
    exists row, In row tables /\ field "table" entry = Some (py (name_of_row row)).
Proof.
  unfold refs.
  induction tables as [| row tables IH]; intros [| fk_info infos] entry;
    simpl; try contradiction.
  rewrite in_app_iff, in_map_iff. intros [(fk & <- & _) | Hin].
  - exists row. split; [left; reflexivity | reflexivity].
  - destruct (IH infos entry Hin) as (row' & Hrow' & Hfield).
    exists row'. split; [right; exact Hrow' | exact Hfield].
Qed.

End Shapes.

(** ** Properties of the analyser on any engine *)

(** C3. Whatever the engine does, [analyze_database_schema] returns a
    value and never raises.  Among the calls it made, [sqlite3.connect]
    occurs once; and if a call raised an exception [e], that call is the
    last one of the run (nothing is called again after a failure), every
    call before it went well, and the value returned is
    [{'error': str(e)}]. *)
Theorem analyze_catches_every_exception
    (engine : Sqlite3) (db_path : string) (s : State) :
  exists (v : PyVal) (evs : list Event),
    fst (analyze_database_schema db_path s) = Ok v /\
    log (snd (analyze_database_schema db_path s)) = log s ++ evs /\
    connects evs = 1%nat /\
    forall pre c e post,
      evs = pre ++ mkEvent c (Raised e) :: post ->
      post = [] /\
      Forall (fun ev => failed ev = false) pre /\
      v = error_result (str e).
Proof.
  destruct (analyze_run db_path s) as (evs & Hlog & _ & Hc & H).
  destruct H as [(tables & infos & _ & _ & Hall & Hr) | (e0 & Hd & Hr)].
  - eexists _, evs. split; [exact Hr |]. split; [exact Hlog |].
    split; [exact Hc |].
    intros pre c e post ->. exfalso.
    apply (no_failed_call pre post (mkEvent c (Raised e))); [reflexivity | exact Hall].
  - exists (error_result (str e0)), evs. split; [exact Hr |].
    split; [exact Hlog |]. split; [exact Hc |].
    intros pre c e post Hevs.
    destruct Hd as (pre0 & Hpre0 & [Heq | (c0 & Heq)]).
    + exfalso. subst evs. rewrite Hevs in Hpre0.
      apply (no_failed_call pre post (mkEvent c (Raised e))); [reflexivity | exact Hpre0].
    + rewrite Heq in Hevs. symmetry in Hevs.
      apply failed_call_is_last in Hevs; [| reflexivity | exact Hpre0].
      destruct Hevs as (-> & -> & [= -> ->]). auto.
Qed.

(** C4. The value returned has exactly one of the two shapes: the keys
    [foreign_keys], [table_count], [found_fk_count] and no [error], or the
    single key [error] and none of the three others. *)
Theorem analyze_returns_one_shape
    (engine : Sqlite3) (db_path : string) (s : State) :
  exists v : PyVal,
    fst (analyze_database_schema db_path s) = Ok v /\
    ((success_shape v /\ ~ error_shape v /\ field "error" v = None) \/
     (error_shape v /\ ~ success_shape v /\
      field "foreign_keys" v = None /\
      field "table_count" v = None /\
      field "found_fk_count" v = None)).
Proof.
  destruct (analyze_result db_path s)
    as (evs & _ & [(tables & infos & _ & _ & Hr) | (e & Hr)]);
    eexists; (split; [exact Hr |]).
  - left. repeat split. discriminate.
  - right. repeat split. discriminate.
Qed.

(** C5. In a result of the success shape, [found_fk_count] is the length
    of the list [foreign_keys]. *)
Theorem found_fk_count_is_length
    (engine : Sqlite3) (db_path : string) (s : State) (v : PyVal) :
  fst (analyze_database_schema db_path s) = Ok v ->
  success_shape v ->
  exists foreign_keys : list PyVal,
    field "foreign_keys" v = Some (PList foreign_keys) /\
    field "found_fk_count" v = Some (PInt (len foreign_keys)).
Proof.
  intros Hv Hshape.
  destruct (analyze_result db_path s)
    as (evs & _ & [(tables & infos & _ & _ & Hr) | (e & Hr)]);
    rewrite Hr in Hv; injection Hv as <-.
  - eexists. split; reflexivity.
  - discriminate Hshape.
Qed.

(** C6. When the run succeeds, its calls are those of [success_trace]: the
    catalog query answered the rows [tables], and the pragma answered
    [infos], one list of rows per table, in the order of [tables].  The
    list [foreign_keys] of the result is then one [ForeignKeyRef] per row
    of these answers, the tables in catalog order and the rows of one
    table in the order the pragma returned them. *)
Theorem foreign_keys_follow_the_rows
    (engine : Sqlite3) (db_path : string) (s : State) (v : PyVal) :
  fst (analyze_database_schema db_path s) = Ok v ->
  success_shape v ->
  exists (tables : list Row) (infos : list (list Row)),
    log (snd (analyze_database_schema db_path s))
      = log s ++ success_trace db_path tables infos /\
    length infos = length tables /\
    field "foreign_keys" v
      = Some (PList (concat (zip_with
                       (fun row fk_info =>
                          map (foreign_key_ref (name_of_row row)) fk_info)
                       tables infos))).
Proof.
  intros Hv Hshape.
  destruct (analyze_result db_path s)
    as (evs & Hlog & [(tables & infos & Hlen & -> & Hr) | (e & Hr)]);
    rewrite Hr in Hv; injection Hv as <-.
  - exists tables, infos. repeat split; assumption.
  - discriminate Hshape.
Qed.

(** C10. In a result that has a list [foreign_keys], the [table] of every
    entry is the name in one of the rows that the catalog query of the
    same run returned. *)
Theorem every_entry_names_a_listed_table
    (engine : Sqlite3) (db_path : string) (s : State) (v : PyVal)
    (foreign_keys : list PyVal) (entry : PyVal) :
  fst (analyze_database_schema db_path s) = Ok v ->
  field "foreign_keys" v = Some (PList foreign_keys) ->
  In entry foreign_keys ->
  exists (tables : list Row) (infos : list (list Row)) (row : Row),
    log (snd (analyze_database_schema db_path s))
      = log s ++ success_trace db_path tables infos /\
    In row tables /\
    field "table" entry = Some (py (name_of_row row)).
Proof.
  intros Hv Hfks Hin.
  destruct (analyze_result db_path s)
    as (evs & Hlog & [(tables & infos & Hlen & -> & Hr) | (e & Hr)]);
    rewrite Hr in Hv; injection Hv as <-.
  - injection Hfks as <-.
    destruct (refs_table tables infos entry Hin) as (row & Hrow & Hfield).
    exists tables, infos, row. auto.
  - discriminate Hfks.
Qed.

(** ** The analyser on the model of [sqlite3] *)

Import Engine.

Section OnTheModel.

Lemma run_catalog_query (db : Schema) :
  run_sql db catalog_query = Ok (select_tables db).
Proof. unfold run_sql. rewrite String.eqb_refl. reflexivity. Qed.

(** The statement the f-string builds is parsed from its argument on. *)
Lemma run_pragma_query (db : Schema) (name : string) :
  run_sql db (pragma_query (SText name))
  = match pragma_argument (name +:+ ")") with
    | Ok table => Ok (foreign_key_list db table)
    | Raised e => Raised e
    end.
Proof. reflexivity. Qed.

Lemma foreign_key_list_rows (db : Schema) (name : string) :
  exists ks, foreign_key_list db name = map fk_row ks.
Proof.
  unfold foreign_key_list. destruct (List.find _ db) as [e |].
  - exists (e_fks e). reflexivity.
  - exists []. reflexivity.
Qed.

(** The rows of the pragma have the columns the analyser reads. *)
Lemma inner_loop_on_rows (table_name : SqlVal) (ks : list ForeignKey) :
  forall (acc : list PyVal) (s : State),
    for_each (map fk_row ks) (append_fk table_name) acc s
    = (Ok (acc ++ map (foreign_key_ref table_name) (map fk_row ks)), s).
Proof.
  induction ks as [| k ks IH]; intros acc s; simpl.
  - unfold ret. rewrite app_nil_r. reflexivity.
  - unfold bind. change (append_fk table_name (fk_row k) acc s)
      with (Ok (acc ++ [foreign_key_ref table_name (fk_row k)]), s).
    cbv beta iota. rewrite IH, <- app_assoc. reflexivity.
Qed.

Lemma connected_store (db_path : string) (conn cur : nat) (rows : list Row)
    (h : Host) :
  connected db_path conn cur h ->
  connected db_path conn cur (store cur conn rows h) /\
  cursors (store cur conn rows h) !! cur = Some (conn, rows).
Proof.
  intros (Hconn & rows0 & Hcur).
  assert (Hnew : cursors (store cur conn rows h) !! cur = Some (conn, rows)).
  { simpl. apply list_lookup_insert_eq. eapply lookup_lt_Some, Hcur. }
  split; [| exact Hnew]. split; [exact Hconn |]. exists rows. exact Hnew.
Qed.

Lemma database_of_connected (db_path : string) (conn cur : nat) (h : Host) :
  connected db_path conn cur h ->
  database_of h cur
  = match files h !! db_path with
    | Some (Database db) => Ok (conn, db)
    | Some NotADatabase => Raised not_a_database
    | Some Unopenable | None => Raised cannot_open
    end.
Proof.
  intros (Hconn & rows & Hcur). unfold database_of, open_path.
  rewrite Hcur, Hconn. reflexivity.
Qed.

Lemma exec_connected (db_path : string) (db : Schema) (conn cur : nat)
    (sql : string) (h : Host) :
  connected db_path conn cur h ->
  files h !! db_path = Some (Database db) ->
  exec cur sql h
  = match run_sql db sql with
    | Ok rows => (Ok tt, store cur conn rows h)
    | Raised e => (Raised e, h)
    end.
Proof.
  intros Hc Hfile. unfold exec.
  rewrite (database_of_connected db_path conn cur h Hc), Hfile. reflexivity.
Qed.

Lemma fetch_connected (db_path : string) (conn cur : nat) (rows : list Row)
    (h : Host) :
  connected db_path conn cur h ->
  cursors h !! cur = Some (conn, rows) ->
  fetch cur h = (Ok rows, store cur conn [] h).
Proof.
  intros (Hconn & _) Hcur. unfold fetch, open_path.
  rewrite Hcur, Hconn. reflexivity.
Qed.

(** The test [if fk_info:] before the inner loop changes nothing: the loop
    over no row does nothing. *)
Lemma guarded_loop {A S : Type} (xs : list A) (body : A -> S -> Py S) (acc : S) :
  (if truthy xs then for_each xs body acc else ret acc) = for_each xs body acc.
Proof. destruct xs; reflexivity. Qed.

(** One round of the outer loop on a table of the database. *)
Lemma table_step_on_model (db_path : string) (db : Schema) (conn cur : nat)
    (e : Entry) (acc : list PyVal) (s : State) :
  connected db_path conn cur (world s) ->
  files (world s) !! db_path = Some (Database db) ->
  exists s',
    table_step cur (row_of e) acc s
    = (match pragma_argument (e_name e +:+ ")") with
       | Ok table =>
           Ok (acc ++ map (foreign_key_ref (SText (e_name e)))
                          (foreign_key_list db table))
       | Raised err => Raised err
       end, s') /\
    connected db_path conn cur (world s') /\
    files (world s') = files (world s).
Proof.
  intros Hc Hfile. unfold table_step, row_of, bind.
  simpl unpack2. unfold ret at 1. cbv iota beta.
  unfold execute, fetchall, call.
  change (@cursor_execute sqlite3) with exec.
  change (@cursor_fetchall sqlite3) with fetch.
  rewrite (exec_connected db_path db conn cur _ _ Hc Hfile), run_pragma_query.
  destruct (pragma_argument (e_name e +:+ ")")) as [table | err]; simpl.
  - destruct (connected_store db_path conn cur (foreign_key_list db table) _ Hc)
      as (Hc1 & Hcur1).
    rewrite (fetch_connected db_path conn cur _ _ Hc1 Hcur1). simpl.
    destruct (connected_store db_path conn cur [] _ Hc1) as (Hc2 & _).
    destruct (foreign_key_list_rows db table) as (ks & Hks). rewrite Hks in *.
    rewrite guarded_loop, inner_loop_on_rows.
    eexists. split; [reflexivity |]. split; [exact Hc2 | reflexivity].
  - eexists. split; [reflexivity |]. split; [exact Hc | reflexivity].
Qed.

(** The outer loop computes [gather]. *)
Lemma loop_on_model (db_path : string) (db : Schema) (conn cur : nat)
    (tables : list Entry) :
  forall (acc : list PyVal) (s : State),
    connected db_path conn cur (world s) ->
    files (world s) !! db_path = Some (Database db) ->
    exists s',
      for_each (map row_of tables) (table_step cur) acc s
      = (gather db tables acc, s') /\
      connected db_path conn cur (world s') /\
      files (world s') = files (world s).
Proof.
  induction tables as [| e tables IH]; intros acc s Hc Hfile; simpl.
  - exists s. auto.
  - unfold bind.
    destruct (table_step_on_model db_path db conn cur e acc s Hc Hfile)
      as (s1 & -> & Hc1 & Hfiles1).
    destruct (pragma_argument (e_name e +:+ ")")) as [table | err].
    + rewrite <- Hfiles1 in Hfile.
      edestruct (IH (acc ++ map (foreign_key_ref (SText (e_name e)))
                                (foreign_key_list db table)) s1 Hc1 Hfile)
        as (s2 & -> & Hc2 & Hfiles2).
      exists s2. rewrite Hfiles2, Hfiles1. auto.
    + exists s1. auto.
Qed.


Lemma lookup_opened (db_path : string) (fs : gmap string Node) :
  opened db_path fs !! db_path
  = match fs !! db_path with
    | None => Some (Database [])
    | Some node => Some node
    end.
Proof.
  unfold opened. destruct (fs !! db_path) as [node |] eqn:E.
  - exact E.
  - apply lookup_insert_eq.
Qed.

(** Opening a path that can be opened and asking for a cursor. *)
Lemma open_then_cursor (db_path : string) (h : Host) :
  files h !! db_path <> Some Unopenable ->
  exists h1 h2,
    open_database db_path h = (Ok (length (connections h)), h1) /\
    new_cursor (length (connections h)) h1 = (Ok (length (cursors h)), h2) /\
    connected db_path (length (connections h)) (length (cursors h)) h2 /\
    files h2 = opened db_path (files h) /\
    connections h2 = connections h ++ [(db_path, true)].
Proof.
  intros Hnode.
  assert (Hconn : (connections h ++ [(db_path, true)]) !! length (connections h)
                  = Some (db_path, true)).
  { apply list_lookup_middle. reflexivity. }
  assert (Hcur : forall conn : nat,
            (cursors h ++ [(conn, [])]) !! length (cursors h)
            = Some (conn, @nil Row)).
  { intros conn. apply list_lookup_middle. reflexivity. }
  unfold open_database, opened.
  destruct (files h !! db_path) as [[| | db] |] eqn:E; [congruence | | |];
    eexists _, _; (split; [reflexivity |]);
    unfold new_cursor, open_path; simpl; rewrite Hconn;
    (split; [reflexivity |]); simpl;
    (split; [split; [exact Hconn | eexists; apply Hcur] |]);
    split; reflexivity.
Qed.

Lemma close_connection_ok (conn : nat) (h : Host) :
  fst (close_connection conn h) = Ok tt /\
  files (snd (close_connection conn h)) = files h.
Proof.
  unfold close_connection.
  destruct (connections h !! conn) as [[db_path b] |]; split; reflexivity.
Qed.

(** A call of the model, once the operation is known. *)
Lemma call_on_model {A : Type} (c : Call) (answer : A -> Answer)
    (op : Host -> Res A * Host) (s : State) (r : Res A) (h' : Host) :
  op (world s) = (r, h') ->
  call c answer op s
  = (r, {| world := h';
           log := log s ++ [mkEvent c match r with
                                      | Ok a => Ok (answer a)
                                      | Raised e => Raised e
                                      end];
           stdout := stdout s |}).
Proof. intros H. unfold call. rewrite H. reflexivity. Qed.

(** The run up to the cursor, for a path that can be opened. *)
Lemma analyze_from_cursor (db_path : string) (s : State) :
  files (world s) !! db_path <> Some Unopenable ->
  exists s2,
    connected db_path (length (connections (world s)))
              (length (cursors (world s))) (world s2) /\
    files (world s2) = opened db_path (files (world s)) /\
    analyze_database_schema db_path s
    = try_except
        (let* _ := execute (length (cursors (world s))) catalog_query in
         let* tables := fetchall (length (cursors (world s))) in
         let* foreign_keys :=
           for_each tables (table_step (length (cursors (world s)))) [] in
         let table_count := len tables in
         let* _ := close (length (connections (world s))) in
         ret (PDict [("foreign_keys", PList foreign_keys);
                     ("table_count", PInt table_count);
                     ("found_fk_count", PInt (len foreign_keys))]))%py
        (fun e => ret (PDict [("error", PStr (str e))])) s2.
Proof.
  intros Hok.
  destruct (open_then_cursor db_path (world s) Hok)
    as (h1 & h2 & Hopen & Hcursor & Hc & Hfiles & _).
  eexists (@mkState sqlite3 h2 _ _). split; [exact Hc |]. split; [exact Hfiles |].
  unfold analyze_database_schema, try_except, analyze_try.
  unfold bind at 1. unfold connect.
  change (@sqlite3_connect sqlite3) with open_database.
  rewrite (call_on_model _ _ _ s _ _ Hopen). cbv beta iota.
  unfold bind at 1. unfold cursor.
  change (@connection_cursor sqlite3) with new_cursor.
  erewrite call_on_model; [| exact Hcursor]. cbv beta iota.
  reflexivity.
Qed.

(** The run from the cursor on, on a file. *)
Lemma analyze_on_file (db_path : string) (conn cur : nat) (node : Node)
    (s : State) :
  connected db_path conn cur (world s) ->
  files (world s) !! db_path = Some node ->
  node <> Unopenable ->
  exists s',
    try_except
      (let* _ := execute cur catalog_query in
       let* tables := fetchall cur in
       let* foreign_keys := for_each tables (table_step cur) [] in
       let table_count := len tables in
       let* _ := close conn in
       ret (PDict [("foreign_keys", PList foreign_keys);
                   ("table_count", PInt table_count);
                   ("found_fk_count", PInt (len foreign_keys))]))%py
      (fun e => ret (PDict [("error", PStr (str e))])) s
    = (Ok (answer (Some node)), s') /\
    files (world s') = files (world s) /\
    (node = NotADatabase -> world s' = world s).
Proof.
  intros Hc Hfile Hnode. unfold try_except.
  unfold bind at 1. unfold execute.
  change (@cursor_execute sqlite3) with exec.
  destruct node as [| | db]; [congruence | |].
  - (* a file that is no database *)
    erewrite call_on_model.
    2: { unfold exec. rewrite (database_of_connected db_path conn cur _ Hc), Hfile.
         reflexivity. }
    eexists. split; [reflexivity |]. split; reflexivity.
  - (* a database *)
    erewrite call_on_model.
    2: { rewrite (exec_connected db_path db conn cur _ _ Hc Hfile), run_catalog_query.
         reflexivity. }
    cbv beta iota.
    destruct (connected_store db_path conn cur (select_tables db) _ Hc)
      as (Hc1 & Hcur1).
    unfold bind at 1. unfold fetchall.
    change (@cursor_fetchall sqlite3) with fetch.
    erewrite call_on_model.
    2: { apply (fetch_connected db_path conn cur); [exact Hc1 | exact Hcur1]. }
    cbv beta iota.
    destruct (connected_store db_path conn cur [] _ Hc1) as (Hc2 & _).
    unfold bind at 1. unfold select_tables in *.
    match goal with
    | |- context [for_each _ _ _ ?st] =>
        destruct (loop_on_model db_path db conn cur (tables_of db) [] st Hc2 Hfile)
          as (s3 & Hloop & Hc3 & Hfiles3)
    end.
    rewrite Hloop. simpl in Hfiles3. simpl answer.
    destruct (gather db (tables_of db) []) as [foreign_keys | err].
    + unfold bind at 1. unfold close.
      change (@connection_close sqlite3) with close_connection.
      destruct (close_connection_ok conn (world s3)) as (Hr & Hfiles4).
      destruct (close_connection conn (world s3)) as [r h4] eqn:Hclose.
      simpl in Hr, Hfiles4. subst r.
      erewrite call_on_model; [| exact Hclose]. simpl.
      eexists. split.
      { unfold success_result, len. rewrite length_map. reflexivity. }
      simpl. split; [congruence | discriminate].
    + simpl. eexists. split; [reflexivity |]. split; [exact Hfiles3 | discriminate].
Qed.

(** On the model, the analyser computes [answer] of the file at
    [db_path], and leaves the files as opening the path leaves them. *)
Lemma analyze_on_model (db_path : string) (s : State) :
  exists s',
    analyze_database_schema db_path s
      = (Ok (answer (files (world s) !! db_path)), s') /\
    files (world s') = opened db_path (files (world s)) /\
    stdout s' = stdout s.
Proof.
  assert (Hout := analyze_run db_path s).
  destruct Hout as (evs & _ & Hout & _).
  cut (exists s',
         analyze_database_schema db_path s
           = (Ok (answer (files (world s) !! db_path)), s') /\
         files (world s') = opened db_path (files (world s))).
  { intros (s' & Hrun & Hfiles). exists s'.
    rewrite Hrun in Hout. auto. }
  clear Hout.
  assert (Hrest : forall node : Node,
            node <> Unopenable ->
            opened db_path (files (world s)) !! db_path = Some node ->
            files (world s) !! db_path <> Some Unopenable ->
            exists s',
              analyze_database_schema db_path s = (Ok (answer (Some node)), s') /\
              files (world s') = opened db_path (files (world s))).
  { intros node Hnode Hfile Hok.
    destruct (analyze_from_cursor db_path s Hok) as (s2 & Hc & Hfiles & ->).
    rewrite <- Hfiles in *.
    destruct (analyze_on_file db_path _ _ node s2 Hc Hfile Hnode)
      as (s' & Hrun & Hfiles' & _).
    exists s'. auto. }
  rewrite lookup_opened in Hrest.
  destruct (files (world s) !! db_path) as [[| | db] |] eqn:E.
  - (* the path cannot be opened *)
    unfold analyze_database_schema, try_except, analyze_try.
    unfold bind at 1. unfold connect.
    change (@sqlite3_connect sqlite3) with open_database.
    erewrite call_on_model.
    2: { unfold open_database. rewrite E. reflexivity. }
    unfold opened. rewrite E. eexists. split; reflexivity.
  - apply Hrest; [discriminate | reflexivity | discriminate].
  - apply Hrest; [discriminate | reflexivity | discriminate].
  - apply (Hrest (Database [])); [discriminate | reflexivity | discriminate].
Qed.

(** On a file that is no database the run ends with the connection it
    opened still open. *)
Lemma analyze_on_foreign_file (db_path : string) (s : State) :
  files (world s) !! db_path = Some NotADatabase ->
  exists s',
    analyze_database_schema db_path s
      = (Ok (error_result (str not_a_database)), s') /\
    is_open (world s') (length (connections (world s))) = true.
Proof.
  intros E.
  destruct (analyze_from_cursor db_path s) as (s2 & Hc & Hfiles & ->);
    [rewrite E; discriminate |].
  destruct (analyze_on_file db_path _ _ NotADatabase s2 Hc)
    as (s' & Hrun & _ & Hworld); [| discriminate |].
  { rewrite Hfiles, lookup_opened, E. reflexivity. }
  exists s'. split; [exact Hrun |].
  rewrite (Hworld eq_refl). unfold is_open, open_path.
  destruct Hc as (-> & _). reflexivity.
Qed.

End OnTheModel.

(** ** Properties that depend on files and names *)

Section Files.

Lemma answer_opened (db_path : string) (fs : gmap string Node) :
  answer (opened db_path fs !! db_path) = answer (fs !! db_path).
Proof.
  rewrite lookup_opened. destruct (fs !! db_path); reflexivity.
Qed.

(** What the script prints: the JSON text of [answer] and a line break. *)
Lemma run_script_prints (h : Host) :
  fst (run_script h)
    = json_dumps_indent2 (answer (files h !! "database.db")) +:+ newline /\
  files (snd (run_script h)) = opened "database.db" (files h).
Proof.
  unfold run_script, main, bind.
  destruct (analyze_on_model "database.db" (fresh h)) as (s' & -> & Hfiles & Hout).
  simpl. rewrite Hout. split; [reflexivity | exact Hfiles].
Qed.

(** The first table whose name the pragma refuses stops [gather]. *)
Lemma gather_raises (db : Schema) (tables : list Entry) (e : Entry) :
  In e tables ->
  (exists err, pragma_argument (e_name e +:+ ")") = Raised err) ->
  forall acc, exists err, gather db tables acc = Raised err.
Proof.
  intros Hin (err & Herr).
  induction tables as [| e' tables IH]; [contradiction |].
  intros acc. simpl.
  destruct (pragma_argument (e_name e' +:+ ")")) as [table | err'] eqn:E.
  - destruct Hin as [-> | Hin]; [congruence |]. apply IH. exact Hin.
  - exists err'. reflexivity.
Qed.



End Files.

(** C1, as amended.  For a path that [sqlite3.connect] reads as the name
    of a file and that holds a file of two bytes or more that SQLite does
    not recognise as a database, or that cannot be opened or created, the
    analyser returns [{'error': message}] with a message that is not
    empty, and the result has neither the key [table_count] nor the key
    [foreign_keys]. *)
Theorem error_on_foreign_or_unopenable_file (db_path : string) (s : State) :
  plain_file_name db_path ->
  files (world s) !! db_path = Some NotADatabase \/
  files (world s) !! db_path = Some Unopenable ->
  exists message,
    fst (analyze_database_schema db_path s) = Ok (error_result message) /\
    message <> EmptyString /\
    field "table_count" (error_result message) = None /\
    field "foreign_keys" (error_result message) = None.
Proof.
  intros _ Hnode.
  destruct (analyze_on_model db_path s) as (s' & -> & _).
  destruct Hnode as [-> | ->]; simpl; eexists;
    (split; [reflexivity |]); (split; [discriminate |]); split; reflexivity.
Qed.

(** The instance on a machine with a text file at [database.db]. *)
Lemma error_on_foreign_or_unopenable_file_witness :
  exists message,
    fst (analyze_database_schema "database.db" (fresh with_text_file))
      = Ok (error_result message) /\
    message <> EmptyString /\
    field "table_count" (error_result message) = None /\
    field "foreign_keys" (error_result message) = None.
Proof.
  apply (error_on_foreign_or_unopenable_file "database.db" (fresh with_text_file)).
  - repeat split; discriminate.
  - left. vm_compute. reflexivity.
Defined.

(** C1, as the specification words it, fails: [sqlite3.connect] creates
    the file that is missing, empty, and the analyser returns the success
    shape with no table. *)
Lemma missing_file_is_no_error :
  ~ error_on_missing_or_foreign_file "database.db" (fresh empty_disk).
Proof.
  intros H. destruct H as (message & Hr & _).
  - left. vm_compute. reflexivity.
  - vm_compute in Hr. discriminate Hr.
Qed.

(** The run on a missing file. *)
Example analyze_missing_file :
  fst (analyze_database_schema "database.db" (fresh empty_disk))
    = Ok (success_result [] 0) /\
  files (world (snd (analyze_database_schema "database.db" (fresh empty_disk))))
    !! "database.db" = Some (Database []).
Proof. split; vm_compute; reflexivity. Qed.

(** C2 fails on the error path: on a file that is no database
    [sqlite3.connect] succeeds, the catalog query raises, and the analyser
    returns the failure shape while the connection it opened, number 0, is
    still open; the log of the run has no call of [close]. *)
Theorem connection_left_open_on_error :
  let run := analyze_database_schema "database.db" (fresh with_text_file) in
  fst run = Ok (error_result "file is not a database") /\
  is_open (world (snd run)) 0 = true /\
  map ev_call (log (snd run))
    = [CConnect "database.db"; CCursor; CExecute catalog_query].
Proof. vm_compute. repeat split. Qed.

(** C7 fails on a database whose single table is named [Order Details]
    and declares no foreign key: the pragma built from the name is no
    statement, and the analyser returns the failure shape. *)
Theorem table_name_with_space_gives_error :
  len (tables_of order_details) = 1 /\
  Forall (fun e => e_fks e = []) order_details /\
  fst (analyze_database_schema "database.db" (fresh (holding order_details)))
    = Ok (error_result ("near " +:+ quoted "Order" +:+ ": syntax error")).
Proof.
  split; [reflexivity |]. split; [repeat constructor |].
  vm_compute. reflexivity.
Qed.

(** C8. Running the script twice in a row on a machine prints the same
    text both times. *)
Theorem script_prints_the_same_twice (h : Host) :
  fst (run_script (snd (run_script h))) = fst (run_script h).
Proof.
  destruct (run_script_prints h) as (Hout1 & Hfiles1).
  destruct (run_script_prints (snd (run_script h))) as (Hout2 & _).
  rewrite Hout2, Hout1, Hfiles1, answer_opened. reflexivity.
Qed.

(** C9. When the catalog of a database has a table whose name, put as it
    is between the parentheses of [PRAGMA foreign_key_list(...)], is no
    statement, the analyser returns the failure shape. *)
Theorem unquoted_table_name_gives_error
    (db_path : string) (s : State) (db : Schema) (e : Entry) :
  files (world s) !! db_path = Some (Database db) ->
  In e (tables_of db) ->
  (exists err, pragma_argument (e_name e +:+ ")") = Raised err) ->
  exists message,
    fst (analyze_database_schema db_path s) = Ok (error_result message) /\
    error_shape (error_result message).
Proof.
  intros Hfile Hin Hbad.
  destruct (analyze_on_model db_path s) as (s' & -> & _).
  rewrite Hfile. simpl.
  destruct (gather_raises db (tables_of db) e Hin Hbad []) as (err & ->).
  exists (str err). split; reflexivity.
Qed.

(** The instance on the database [stock], whose table is named
    [stock(2024)]. *)
Lemma unquoted_table_name_gives_error_witness :
  exists message,
    fst (analyze_database_schema "database.db" (fresh (holding stock)))
      = Ok (error_result message) /\
    error_shape (error_result message).
Proof.
  apply (unquoted_table_name_gives_error "database.db" (fresh (holding stock))
           stock
           (mkEntry KTable "stock(2024)"
              (Some "CREATE TABLE [stock(2024)] (item TEXT, quantity INTEGER)") [])).
  - vm_compute. reflexivity.
  - left. reflexivity.
  - eexists. vm_compute. reflexivity.
Defined.

(** ** Runs on the example machines *)

(** The second testable property of the specification: a table [orders]
    with a column [customer_id] that references [customers(id)]. *)
Example analyze_shop :
  fst (analyze_database_schema "database.db" (fresh (holding shop)))
    = Ok shop_result.
Proof. vm_compute. reflexivity. Qed.

(** What the script prints on a machine without any file. *)
Example script_on_empty_disk :
  fst (run_script empty_disk)
    = "{" +:+ newline
      +:+ "  " +:+ json_string "foreign_keys" +:+ ": []," +:+ newline
      +:+ "  " +:+ json_string "table_count" +:+ ": 0," +:+ newline
      +:+ "  " +:+ json_string "found_fk_count" +:+ ": 0" +:+ newline
      +:+ "}" +:+ newline.
Proof. vm_compute. reflexivity. Qed.

(** The instances on the database [shop]. *)
Lemma found_fk_count_is_length_witness :
  exists foreign_keys : list PyVal,
    field "foreign_keys" shop_result = Some (PList foreign_keys) /\
    field "found_fk_count" shop_result = Some (PInt (len foreign_keys)).
Proof.
  apply (found_fk_count_is_length sqlite3 "database.db" (fresh (holding shop))
           shop_result).
  - vm_compute. reflexivity.
  - vm_compute. reflexivity.
Defined.

Lemma foreign_keys_follow_the_rows_witness :
  exists (tables : list Row) (infos : list (list Row)),
    log (snd (analyze_database_schema "database.db" (fresh (holding shop))))
      = log (fresh (holding shop)) ++ success_trace "database.db" tables infos /\
    length infos = length tables /\
    field "foreign_keys" shop_result
      = Some (PList (concat (zip_with
                       (fun row fk_info =>
                          map (foreign_key_ref (name_of_row row)) fk_info)
                       tables infos))).
Proof.
  apply (foreign_keys_follow_the_rows sqlite3 "database.db"
           (fresh (holding shop)) shop_result).
  - vm_compute. reflexivity.
  - vm_compute. reflexivity.
Defined.

Lemma every_entry_names_a_listed_table_witness :
  exists (tables : list Row) (infos : list (list Row)) (row : Row),
    log (snd (analyze_database_schema "database.db" (fresh (holding shop))))
      = log (fresh (holding shop)) ++ success_trace "database.db" tables infos /\
    In row tables /\
    field "table" orders_ref = Some (py (name_of_row row)).
Proof.
  apply (every_entry_names_a_listed_table sqlite3 "database.db"
           (fresh (holding shop)) shop_result [orders_ref] orders_ref).
  - vm_compute. reflexivity.
  - vm_compute. reflexivity.
  - left. reflexivity.
Defined.

(** * Further properties *)

(** ** The order of the calls *)

Section Protocol.
Context {engine : Sqlite3}.

Lemma follows_nil (trace : list Event) : follows trace [].
Proof. exists [], trace. split; [reflexivity | left; reflexivity]. Qed.

Lemma follows_all (trace : list Event) : follows trace trace.
Proof.
  exists trace, []. split; [rewrite app_nil_r; reflexivity | left; reflexivity].
Qed.

(** The failure of the call that comes after a beginning of the trace. *)
Lemma follows_failure (pre rest : list Event) (c : Call) (ok : Res Answer)
    (e : Exception) :
  follows (pre ++ mkEvent c ok :: rest) (pre ++ [mkEvent c (Raised e)]).
Proof.
  exists pre, (mkEvent c ok :: rest). split; [reflexivity |].
  right. exists c, ok, e, rest. split; reflexivity.
Qed.

Lemma follows_app (before trace evs : list Event) :
  follows trace evs -> follows (before ++ trace) (before ++ evs).
Proof.
  intros (pre & rest & -> & H). exists (before ++ pre), rest.
  split; [rewrite app_assoc; reflexivity |].
  destruct H as [-> | (c & ok & e & rest' & -> & ->)].
  - left. reflexivity.
  - right. exists c, ok, e, rest'. rewrite app_assoc. split; reflexivity.
Qed.

Lemma follows_longer (trace after evs : list Event) :
  follows trace evs -> follows (trace ++ after) evs.
Proof.
  intros (pre & rest & -> & H). exists pre, (rest ++ after).
  split; [rewrite app_assoc; reflexivity |].
  destruct H as [-> | (c & ok & e & rest' & -> & ->)].
  - left. reflexivity.
  - right. exists c, ok, e, (rest' ++ after). split; reflexivity.
Qed.

(** Every call of a trace that follows another is a call of that one. *)
Lemma follows_calls (trace evs : list Event) (c : Call) :
  follows trace evs -> In c (map ev_call evs) -> In c (map ev_call trace).
Proof.
  intros (pre & rest & -> & H) Hin. rewrite map_app, in_app_iff.
  destruct H as [-> | (c' & ok & e & rest' & -> & ->)].
  - left. exact Hin.
  - rewrite map_app, in_app_iff in Hin. destruct Hin as [Hin | [<- | []]].
    + left. exact Hin.
    + right. left. reflexivity.
Qed.

(** An entry is built only from a row with the columns it reads. *)
Lemma fk_dict_columns (table_name : SqlVal) (fk : Row) (s s' : State) (d : PyVal) :
  fk_dict table_name fk s = (Ok d, s') -> (5 <= length fk)%nat.
Proof.
  unfold fk_dict, bind, subscript.
  destruct (fk !! 3%nat) as [v3 |]; simpl; [| discriminate].
  destruct (fk !! 2%nat) as [v2 |]; simpl; [| discriminate].
  destruct (fk !! 4%nat) as [v4 |] eqn:E4; simpl; [| discriminate].
  intros _. apply lookup_lt_Some in E4. lia.
Qed.

Lemma inner_loop_columns (table_name : SqlVal) (fk_info : list Row) :
  forall (acc foreign_keys : list PyVal) (s s' : State),
    for_each fk_info (append_fk table_name) acc s = (Ok foreign_keys, s') ->
    Forall (fun fk => (5 <= length fk)%nat) fk_info.
Proof.
  induction fk_info as [| fk rest IH]; intros acc fks s s'; simpl.
  - constructor.
  - unfold bind. unfold append_fk at 1. unfold bind.
    destruct (fk_dict table_name fk s) as [[d | e] s1] eqn:E; [| discriminate].
    simpl. intros H. constructor.
    + eapply fk_dict_columns, E.
    + eapply IH, H.
Qed.

(** The test [if fk_info:] changes nothing: the loop over no row does
    nothing. *)
Lemma guard_is_loop {A S : Type} (xs : list A) (body : A -> S -> Py S) (acc : S) :
  (if truthy xs then for_each xs body acc else ret acc) = for_each xs body acc.
Proof. destruct xs; reflexivity. Qed.

Lemma round_protocol_raise (row : Row) (evs : list Event) (e : Exception) :
  Forall (fun ev => ev_call ev <> CClose) evs ->
  (exists fk_info, follows (round_trace row fk_info) evs) ->
  round_protocol row evs (Raised e).
Proof. intros Hc Hf. split; [exact Hc |]. split; [exact Hf | discriminate]. Qed.

Lemma table_step_protocol (cur : Cursor) (row : Row) (acc : list PyVal) :
  runs (table_step cur row acc) (round_protocol row).
Proof.
  intros s. unfold table_step, bind.
  assert (Hpure : forall e : Exception, exists evs,
            log s = log s ++ evs /\ stdout s = stdout s /\
            round_protocol row evs (Raised e)).
  { intros e. exists []. rewrite app_nil_r.
    split; [reflexivity |]. split; [reflexivity |].
    apply round_protocol_raise; [constructor |].
    exists []. apply follows_nil. }
  destruct row as [| table_name [| table_sql [| extra row]]];
    try (simpl; apply Hpure).
  clear Hpure. simpl. unfold execute, fetchall, call.
  destruct (cursor_execute cur (pragma_query table_name) (world s))
    as [[[] | e] w1]; simpl.
  - destruct (cursor_fetchall cur w1) as [[fk_info | e] w2]; simpl.
    + rewrite guard_is_loop.
      match goal with
      | |- context [for_each fk_info ?f acc ?st] =>
          destruct (inner_loop_run table_name fk_info acc st) as [H | [e H]];
          rewrite H
      end; simpl;
        eexists; rewrite <- app_assoc;
        (split; [reflexivity |]); (split; [reflexivity |]).
      * split; [repeat constructor; discriminate |].
        split; [exists fk_info; apply follows_all |].
        intros fks' _. split; [reflexivity |]. exists fk_info.
        split; [reflexivity |].
        eapply inner_loop_columns, H.
      * apply round_protocol_raise; [repeat constructor; discriminate |].
        exists fk_info. apply follows_all.
    + eexists; rewrite <- app_assoc;
        (split; [reflexivity |]); (split; [reflexivity |]).
      apply round_protocol_raise; [repeat constructor; discriminate |].
      exists [].
      apply (follows_failure
               [mkEvent (CExecute (pragma_query table_name)) (Ok Done)] []).
  - eexists. (split; [reflexivity |]); (split; [reflexivity |]).
    apply round_protocol_raise; [repeat constructor; discriminate |].
    exists []. apply (follows_failure [] [_]).
Qed.


Lemma loop_protocol_runs (cur : Cursor) (tables : list Row) :
  forall acc : list PyVal,
    runs (for_each tables (table_step cur) acc) (loop_protocol tables).
Proof.
  induction tables as [| row tables IH]; intros acc; simpl.
  - apply runs_ret. split; [constructor |]. split.
    + exists []. split; [reflexivity | apply follows_nil].
    + intros fks _. split; [constructor |]. exists [].
      repeat split. constructor.
  - apply runs_bind with (Q1 := round_protocol row).
    + apply table_step_protocol.
    + intros evs1 e (Hc & (fk_info & Hf) & _). split; [exact Hc |]. split.
      * exists (fk_info :: replicate (length tables) []). split.
        -- simpl. rewrite length_replicate. reflexivity.
        -- apply (follows_longer (round_trace row fk_info)). exact Hf.
      * discriminate.
    + intros evs1 fks1 (Hc1 & _ & Hok1).
      destruct (Hok1 fks1 eq_refl) as (Hrow & fk_info & -> & Hcols).
      eapply runs_weaken; [apply (IH fks1) |].
      intros evs2 r (Hc2 & (infos & Hlen & Hf) & Hok2). split; [| split].
      * apply Forall_app. split; assumption.
      * exists (fk_info :: infos). split; [simpl; congruence |].
        apply (follows_app (round_trace row fk_info)). exact Hf.
      * intros fks Hr.
        destruct (Hok2 fks Hr) as (Hrows & infos' & Hlen' & -> & Hcols').
        split; [constructor; assumption |].
        exists (fk_info :: infos'). split; [simpl; congruence |].
        split; [reflexivity | constructor; assumption].
Qed.

Lemma loop_trace_no_close (tables : list Row) :
  forall infos, ~ In close_ok (loop_trace tables infos).
Proof.
  unfold loop_trace.
  induction tables as [| row tables IH]; intros [| fk_info infos]; simpl;
    try tauto.
  intros [H | [H | H]]; try discriminate H. exact (IH infos H).
Qed.

Lemma try_protocol_raise (db_path : string) (evs : list Event) (e : Exception)
    (tables : list Row) (infos : list (list Row)) :
  length infos = length tables ->
  follows (success_trace db_path tables infos) evs ->
  ~ In close_ok evs ->
  try_protocol db_path evs (Raised e).
Proof.
  intros Hlen Hf Hc. split; [exists tables, infos; auto |].
  split; [intros _ _; exact Hc | discriminate].
Qed.

Lemma analyze_try_protocol (db_path : string) :
  runs (analyze_try db_path) (try_protocol db_path).
Proof.
  unfold analyze_try.
  eapply runs_bind; [apply runs_call | |].
  { intros evs1 e ->. apply (try_protocol_raise db_path _ e [] []).
    - reflexivity.
    - apply (follows_failure [] _ (CConnect db_path)).
    - intros [H | []]. discriminate H. }
  intros evs1 conn ->.
  eapply runs_bind; [apply runs_call | |].
  { intros evs2 e ->. apply (try_protocol_raise db_path _ e [] []).
    - reflexivity.
    - apply (follows_failure [_] _ CCursor).
    - intros [H | [H | []]]; discriminate H. }
  intros evs2 cur ->.
  eapply runs_bind; [apply runs_call | |].
  { intros evs3 e ->. apply (try_protocol_raise db_path _ e [] []).
    - reflexivity.
    - apply (follows_failure [_; _] _ (CExecute catalog_query)).
    - intros [H | [H | [H | []]]]; discriminate H. }
  intros evs3 [] ->.
  eapply runs_bind; [apply runs_call | |].
  { intros evs4 e ->. apply (try_protocol_raise db_path _ e [] []).
    - reflexivity.
    - apply (follows_failure [_; _; _] _ CFetchall).
    - intros [H | [H | [H | [H | []]]]]; discriminate H. }
  intros evs4 tables ->.
  eapply runs_bind; [apply (loop_protocol_runs cur tables []) | |].
  { intros evs5 e (Hc & (infos & Hlen & Hf) & _).
    apply (try_protocol_raise db_path _ e tables infos Hlen).
    - apply (follows_app [_; _; _; _]). apply follows_longer. exact Hf.
    - intros [H | [H | [H | [H | H]]]]; try discriminate H.
      rewrite Forall_forall in Hc. apply (Hc close_ok); [| reflexivity].
      apply list_elem_of_In. exact H. }
  intros evs5 foreign_keys (Hc & _ & Hok).
  destruct (Hok foreign_keys eq_refl) as (Hrows & infos & Hlen & -> & Hcols).
  eapply runs_bind; [apply runs_call | |].
  { intros evs6 e ->.
    apply (try_protocol_raise db_path _ e tables infos Hlen).
    - apply (follows_app [_; _; _; _]).
      apply (follows_failure (loop_trace tables infos) [] CClose).
    - intros H. simpl in H.
      destruct H as [H | [H | [H | [H | H]]]]; try discriminate H.
      apply in_app_iff in H. simpl in H. destruct H as [H | [H | []]].
      + exact (loop_trace_no_close tables infos H).
      + discriminate H. }
  intros evs6 [] ->. apply runs_ret. split; [| split].
  - exists tables, infos. split; [exact Hlen |].
    apply (follows_all (success_trace db_path tables infos)).
  - discriminate.
  - intros v _. exists tables, infos. split; [exact Hlen |].
    split; [reflexivity |]. auto.
Qed.

(** The answers in a trace of a run that went well are determined by it. *)
Lemma loop_trace_inj (tables : list Row) :
  forall infos infos' : list (list Row),
    length infos = length tables -> length infos' = length tables ->
    loop_trace tables infos = loop_trace tables infos' -> infos = infos'.
Proof.
  unfold loop_trace.
  induction tables as [| row tables IH]; intros [| i infos] [| i' infos'];
    simpl; try discriminate; [reflexivity |].
  intros Hlen Hlen' [= -> H]. f_equal. apply IH; congruence.
Qed.

Lemma success_trace_inj (db_path : string) (tables tables' : list Row)
    (infos infos' : list (list Row)) :
  length infos = length tables -> length infos' = length tables' ->
  success_trace db_path tables infos = success_trace db_path tables' infos' ->
  tables = tables' /\ infos = infos'.
Proof.
  unfold success_trace. simpl. intros Hlen Hlen' [= <- H].
  apply app_inv_tail in H. split; [reflexivity |].
  apply (loop_trace_inj tables); assumption.
Qed.

(** A run of the analyser: its result, the calls it made, and how they
    are ordered. *)
Lemma analyze_protocol (db_path : string) (s : State) :
  exists (evs : list Event) (v : PyVal),
    log (snd (analyze_database_schema db_path s)) = log s ++ evs /\
    fst (analyze_database_schema db_path s) = Ok v /\
    (exists tables infos,
       length infos = length tables /\
       follows (success_trace db_path tables infos) evs) /\
    ((exists tables infos,
        length infos = length tables /\
        evs = success_trace db_path tables infos /\
        Forall (fun row => length row = 2%nat) tables /\
        Forall (Forall (fun fk => (5 <= length fk)%nat)) infos /\
        v = success_result (refs tables infos) (len tables)) \/
     (~ In close_ok evs /\ exists e, v = error_result (str e))).
Proof.
  unfold analyze_database_schema, try_except.
  destruct (analyze_try_runs db_path s) as (evs & Hlog & _ & _ & _ & Hok).
  destruct (analyze_try_protocol db_path s)
    as (evs' & Hlog' & _ & Hfollows & Hraise & Hok').
  rewrite Hlog in Hlog'. apply app_inv_head in Hlog'. subst evs'.
  destruct (analyze_try db_path s) as [[v | e] s1]; simpl in *.
  - exists evs, v. split; [exact Hlog |]. split; [reflexivity |].
    split; [exact Hfollows |]. left.
    destruct (Hok' v eq_refl) as (tables' & infos' & Hlen' & Hevs' & Hrows & Hcols).
    destruct (Hok v eq_refl) as (tables & infos & Hlen & Hevs & ->).
    rewrite Hevs in Hevs'.
    destruct (success_trace_inj db_path _ _ _ _ Hlen Hlen' Hevs') as [<- <-].
    exists tables, infos. auto 6.
  - exists evs, (error_result (str e)). split; [exact Hlog |].
    split; [reflexivity |]. split; [exact Hfollows |]. right.
    split; [apply (Hraise e eq_refl) | exists e; reflexivity].
Qed.

End Protocol.

(** ** The result and the answers of the engine *)

Section Counting.
Context {engine : Sqlite3}.

Lemma refs_length (tables : list Row) :
  forall infos : list (list Row),
    length infos = length tables ->
    len (refs tables infos) = total_rows infos.
Proof.
  unfold refs, len.
  induction tables as [| row tables IH]; intros [| fk_info infos] Hlen;
    simpl in *; try discriminate; [reflexivity |].
  rewrite length_app, length_map, Nat2Z.inj_add, IH by congruence.
  reflexivity.
Qed.

(** An entry of [refs] is the [ForeignKeyRef] of a row. *)
Lemma refs_entry (tables : list Row) :
  forall (infos : list (list Row)) (entry : PyVal),
    In entry (refs tables infos) ->
    exists table_name fk, entry = foreign_key_ref table_name fk.
Proof.
  unfold refs.
  induction tables as [| row tables IH]; intros [| fk_info infos] entry;
    simpl; try contradiction.
  rewrite in_app_iff, in_map_iff. intros [(fk & <- & _) | Hin].
  - eexists _, _. reflexivity.
  - exact (IH infos entry Hin).
Qed.

Lemma py_scalar (v : SqlVal) : scalar (py v).
Proof. destruct v; exact I. Qed.

(** The statements of a run that went well. *)
Lemma success_trace_statements (db_path : string) (tables : list Row)
    (infos : list (list Row)) (sql : string) :
  In (CExecute sql) (map ev_call (success_trace db_path tables infos)) ->
  sql = catalog_query \/ exists table_name, sql = pragma_query table_name.
Proof.
  unfold success_trace. simpl.
  intros [H | [H | [H | [H | H]]]]; try discriminate H.
  - injection H as <-. left. reflexivity.
  - right. rewrite map_app, in_app_iff in H. destruct H as [H | H].
    + clear - H. revert infos H. unfold loop_trace.
      induction tables as [| row tables IH]; intros [| fk_info infos];
        simpl; try contradiction.
      intros [H | [H | H]]; try discriminate H.
      * injection H as <-. eexists. reflexivity.
      * exact (IH infos H).
    + simpl in H. destruct H as [H | []]. discriminate H.
Qed.

End Counting.

(** X1. In a result of the success shape, [table_count] is the number of
    rows that [fetchall] returned for the catalog query. *)
Theorem table_count_is_number_of_rows
    (engine : Sqlite3) (db_path : string) (s : State) (v : PyVal) :
  fst (analyze_database_schema db_path s) = Ok v ->
  success_shape v ->
  exists (tables : list Row) (infos : list (list Row)),
    log (snd (analyze_database_schema db_path s))
      = log s ++ success_trace db_path tables infos /\
    field "table_count" v = Some (PInt (len tables)).
Proof.
  intros Hv Hshape.
  destruct (analyze_result db_path s)
    as (evs & Hlog & [(tables & infos & Hlen & -> & Hr) | (e & Hr)]);
    rewrite Hr in Hv; injection Hv as <-.
  - exists tables, infos. split; [exact Hlog | reflexivity].
  - discriminate Hshape.
Qed.

(** X2. In a result of the success shape, [found_fk_count] is the total
    number of rows that the pragma returned, all tables together. *)
Theorem found_fk_count_is_number_of_rows
    (engine : Sqlite3) (db_path : string) (s : State) (v : PyVal) :
  fst (analyze_database_schema db_path s) = Ok v ->
  success_shape v ->
  exists (tables : list Row) (infos : list (list Row)),
    log (snd (analyze_database_schema db_path s))
      = log s ++ success_trace db_path tables infos /\
    length infos = length tables /\
    field "found_fk_count" v = Some (PInt (total_rows infos)).
Proof.
  intros Hv Hshape.
  destruct (analyze_result db_path s)
    as (evs & Hlog & [(tables & infos & Hlen & -> & Hr) | (e & Hr)]);
    rewrite Hr in Hv; injection Hv as <-.
  - exists tables, infos. split; [exact Hlog |]. split; [exact Hlen |].
    simpl. rewrite refs_length by exact Hlen. reflexivity.
  - discriminate Hshape.
Qed.

(** X3. Every entry of [foreign_keys] is a dictionary with the keys
    [table], [from_column], [to_table], [to_column], in this order, and
    each of its values is [None], an [int] or a [str]. *)
Theorem entries_have_four_scalar_fields
    (engine : Sqlite3) (db_path : string) (s : State) (v : PyVal)
    (foreign_keys : list PyVal) (entry : PyVal) :
  fst (analyze_database_schema db_path s) = Ok v ->
  field "foreign_keys" v = Some (PList foreign_keys) ->
  In entry foreign_keys ->
  exists d : list (string * PyVal),
    entry = PDict d /\
    keys d = ref_keys /\
    Forall (fun item => scalar (snd item)) d.
Proof.
  intros Hv Hfks Hin.
  destruct (analyze_result db_path s)
    as (evs & Hlog & [(tables & infos & Hlen & -> & Hr) | (e & Hr)]);
    rewrite Hr in Hv; injection Hv as <-.
  - injection Hfks as <-.
    destruct (refs_entry tables infos entry Hin) as (table_name & fk & ->).
    eexists. split; [reflexivity |]. split; [reflexivity |].
    repeat constructor; apply py_scalar.
  - discriminate Hfks.
Qed.

(** X4. When the run succeeds, every row that the catalog query returned
    has exactly two columns and every row that the pragma returned has at
    least five: a row of another width makes the run fail. *)
Theorem rows_have_the_columns_read
    (engine : Sqlite3) (db_path : string) (s : State) (v : PyVal) :
  fst (analyze_database_schema db_path s) = Ok v ->
  success_shape v ->
  exists (tables : list Row) (infos : list (list Row)),
    log (snd (analyze_database_schema db_path s))
      = log s ++ success_trace db_path tables infos /\
    Forall (fun row => length row = 2%nat) tables /\
    Forall (Forall (fun fk => (5 <= length fk)%nat)) infos.
Proof.
  intros Hv Hshape.
  destruct (analyze_protocol db_path s) as (evs & v' & Hlog & Hr & _ & H).
  rewrite Hr in Hv. injection Hv as ->.
  destruct H as [(tables & infos & _ & -> & Hrows & Hcols & _) | (_ & e & ->)].
  - exists tables, infos. auto.
  - discriminate Hshape.
Qed.

(** ** The calls of a run, exactly *)

Section ExactCalls.
Context {engine : Sqlite3}.

(** [fk_dict] builds the entry of a row with five columns or more, and
    raises on a shorter one. *)
Lemma fk_dict_exact (table_name : SqlVal) (fk : Row) (s : State) :
  fk_dict table_name fk s
  = (if (5 <=? length fk)%nat
     then Ok (foreign_key_ref table_name fk)
     else Raised index_error, s).
Proof.
  destruct fk as [| c0 [| c1 [| c2 [| c3 [| c4 fk]]]]]; reflexivity.
Qed.

Lemma inner_loop_exact (table_name : SqlVal) (fk_info : list Row) :
  forall (acc : list PyVal) (s : State),
    exists r,
      for_each fk_info (append_fk table_name) acc s = (r, s) /\
      if forallb (fun fk => (5 <=? length fk)%nat) fk_info
      then exists foreign_keys, r = Ok foreign_keys
      else exists e, r = Raised e.
Proof.
  induction fk_info as [| fk rest IH]; intros acc s; cbn [for_each forallb].
  - eexists. split; [reflexivity |]. eexists. reflexivity.
  - unfold bind. unfold append_fk at 1. unfold bind.
    rewrite fk_dict_exact.
    destruct (5 <=? length fk)%nat; cbn [andb].
    + apply IH.
    + eexists. split; [reflexivity |]. eexists. reflexivity.
Qed.

Lemma outcome_of_before {A : Type} (before trace evs : list Event)
    (complete : bool) (r : Res A) :
  outcome_of trace complete evs r ->
  outcome_of (before ++ trace) complete (before ++ evs) r.
Proof.
  intros [(-> & H) | (pre & c & ok & rest & e & -> & -> & ->)].
  - left. split; [reflexivity | exact H].
  - right. exists (before ++ pre), c, ok, rest, e.
    rewrite !app_assoc. repeat split.
Qed.

(** Code that raised made none of the calls that would have come after
    the ones it is known to make. *)
Lemma outcome_of_raised {A B : Type} (trace after : list Event)
    (complete more : bool) (evs : list Event) (e : Exception) :
  outcome_of trace complete evs (@Raised A e) ->
  outcome_of (trace ++ (if complete then after else [])) (complete && more)
    evs (@Raised B e).
Proof.
  intros [(-> & H) | (pre & c & ok & rest & e' & -> & -> & [= <-])].
  - destruct complete.
    + destruct H as (a & H). discriminate H.
    + left. rewrite app_nil_r. split; [reflexivity |]. exists e. reflexivity.
  - right. exists pre, c, ok, (rest ++ (if complete then after else [])), e.
    rewrite <- app_assoc. repeat split.
Qed.

(** Code that returned made all its calls. *)
Lemma outcome_of_ok {A : Type} (trace evs : list Event) (complete : bool) (a : A) :
  outcome_of trace complete evs (Ok a) -> evs = trace /\ complete = true.
Proof.
  intros [(-> & H) | (pre & c & ok & rest & e & _ & _ & H)]; [| discriminate H].
  destruct complete; [auto |]. destruct H as (e & H). discriminate H.
Qed.

Lemma table_step_exact (cur : Cursor) (row : Row) (acc : list PyVal) :
  runs (table_step cur row acc)
    (fun evs r =>
       exists fk_info,
         outcome_of (round_calls row fk_info) (readable_round row fk_info) evs r).
Proof.
  intros s. unfold table_step, bind.
  assert (Hpure : forall e : Exception,
            (length row =? 2)%nat = false ->
            exists evs,
              log s = log s ++ evs /\ stdout s = stdout s /\
              exists fk_info,
                outcome_of (round_calls row fk_info) (readable_round row fk_info)
                  evs (@Raised (list PyVal) e)).
  { intros e Hrow. exists []. rewrite app_nil_r.
    split; [reflexivity |]. split; [reflexivity |]. exists [].
    left. unfold round_calls, readable_round. rewrite Hrow.
    split; [reflexivity |]. exists e. reflexivity. }
  destruct row as [| table_name [| table_sql [| extra row]]];
    try (simpl; apply Hpure; reflexivity).
  clear Hpure. simpl. unfold execute, fetchall, call.
  destruct (cursor_execute cur (pragma_query table_name) (world s))
    as [[[] | e] w1]; simpl.
  - destruct (cursor_fetchall cur w1) as [[fk_info | e] w2]; simpl.
    + rewrite guard_is_loop.
      match goal with
      | |- context [for_each fk_info ?f acc ?st] =>
          destruct (inner_loop_exact table_name fk_info acc st) as (r & H & Hr);
          rewrite H
      end; simpl.
      eexists. rewrite <- app_assoc.
      split; [reflexivity |]. split; [reflexivity |].
      exists fk_info. left. split; [reflexivity |]. exact Hr.
    + eexists. rewrite <- app_assoc.
      split; [reflexivity |]. split; [reflexivity |].
      exists []. right.
      exists [mkEvent (CExecute (pragma_query table_name)) (Ok Done)],
             CFetchall, (Ok (Rows [])), [], e.
      repeat split.
  - eexists. split; [reflexivity |]. split; [reflexivity |].
    exists []. right.
    exists [], (CExecute (pragma_query table_name)), (Ok Done),
           [mkEvent CFetchall (Ok (Rows []))], e.
    repeat split.
Qed.

Lemma loop_exact (cur : Cursor) (tables : list Row) :
  forall acc : list PyVal,
    runs (for_each tables (table_step cur) acc)
      (fun evs r =>
         exists infos,
           length infos = length tables /\
           outcome_of (loop_calls tables infos) (readable tables infos) evs r).
Proof.
  induction tables as [| row tables IH]; intros acc; simpl for_each.
  - apply runs_ret. exists []. split; [reflexivity |].
    left. split; [reflexivity |]. eexists. reflexivity.
  - eapply runs_bind; [apply table_step_exact | |].
    + intros evs1 e (fk_info & H).
      exists (fk_info :: replicate (length tables) []). split.
      * simpl. rewrite length_replicate. reflexivity.
      * simpl. apply (outcome_of_raised _ _ _ _ _ _ H).
    + intros evs1 fks1 (fk_info & H).
      apply outcome_of_ok in H. destruct H as (-> & Hread).
      eapply runs_weaken; [apply (IH fks1) |].
      intros evs2 r (infos & Hlen & H2).
      exists (fk_info :: infos). split; [simpl; congruence |].
      simpl. rewrite Hread. simpl.
      apply outcome_of_before. exact H2.
Qed.

Lemma analyze_try_exact (db_path : string) :
  runs (analyze_try db_path)
    (fun evs r =>
       exists tables infos,
         length infos = length tables /\
         outcome_of (expected_calls db_path tables infos)
           (readable tables infos) evs r).
Proof.
  unfold analyze_try.
  eapply runs_bind; [apply runs_call | |].
  { intros evs1 e ->. exists [], []. split; [reflexivity |]. right.
    exists [], (CConnect db_path). eexists _, _, e. repeat split. }
  intros evs1 conn ->.
  eapply runs_bind; [apply runs_call | |].
  { intros evs2 e ->. exists [], []. split; [reflexivity |]. right.
    exists [mkEvent (CConnect db_path) (Ok Done)], CCursor.
    eexists _, _, e. repeat split. }
  intros evs2 cur ->.
  eapply runs_bind; [apply runs_call | |].
  { intros evs3 e ->. exists [], []. split; [reflexivity |]. right.
    exists [mkEvent (CConnect db_path) (Ok Done); mkEvent CCursor (Ok Done)],
           (CExecute catalog_query).
    eexists _, _, e. repeat split. }
  intros evs3 [] ->.
  eapply runs_bind; [apply runs_call | |].
  { intros evs4 e ->. exists [], []. split; [reflexivity |]. right.
    exists [mkEvent (CConnect db_path) (Ok Done); mkEvent CCursor (Ok Done);
            mkEvent (CExecute catalog_query) (Ok Done)], CFetchall.
    eexists _, _, e. repeat split. }
  intros evs4 tables ->.
  eapply runs_bind; [apply (loop_exact cur tables []) | |].
  { intros evs5 e (infos & Hlen & H). exists tables, infos.
    split; [exact Hlen |].
    apply (outcome_of_before [_; _; _; _]).
    rewrite <- (andb_true_r (readable tables infos)) at 2.
    apply (outcome_of_raised _ _ _ _ _ _ H). }
  intros evs5 foreign_keys (infos & Hlen & H).
  apply outcome_of_ok in H. destruct H as (-> & Hread).
  eapply runs_bind; [apply runs_call | |].
  { intros evs6 e ->. exists tables, infos. split; [exact Hlen |].
    apply (outcome_of_before [_; _; _; _]). rewrite Hread. right.
    exists (loop_calls tables infos), CClose, (Ok Done), [], e. repeat split. }
  intros evs6 [] ->. apply runs_ret. exists tables, infos.
  split; [exact Hlen |].
  apply (outcome_of_before [_; _; _; _]). rewrite app_nil_r, Hread.
  left. split; [reflexivity |]. eexists. reflexivity.
Qed.

(** When every round can be read, the expected calls are those of
    [success_trace]. *)
Lemma loop_calls_readable (tables : list Row) :
  forall infos : list (list Row),
    length infos = length tables ->
    readable tables infos = true ->
    loop_calls tables infos = loop_trace tables infos.
Proof.
  unfold loop_trace.
  induction tables as [| row tables IH]; intros [| fk_info infos] Hlen Hread;
    simpl in *; try discriminate; [reflexivity |].
  apply andb_true_iff in Hread. destruct Hread as (Hround & Hread).
  rewrite Hround. unfold round_calls.
  unfold readable_round in Hround. apply andb_true_iff in Hround.
  destruct Hround as (-> & _).
  rewrite IH by congruence. reflexivity.
Qed.

Lemma expected_calls_readable (db_path : string) (tables : list Row)
    (infos : list (list Row)) :
  length infos = length tables ->
  readable tables infos = true ->
  expected_calls db_path tables infos = success_trace db_path tables infos.
Proof.
  intros Hlen Hread. unfold expected_calls, success_trace.
  rewrite Hread, loop_calls_readable by assumption. reflexivity.
Qed.

End ExactCalls.

(** X5. Whatever the engine answers, the calls of a run are those of
    [expected_calls] for the answers [tables] of the catalog query and
    [infos] of the pragma: connect, cursor, the catalog query and its
    [fetchall], then the pragma and its [fetchall] for each row in order,
    up to the first round the analyser cannot read, then [close] when it
    could read them all.  Either the run made exactly these calls, and the
    result is the success shape built from the answers when every round
    could be read and the failure shape otherwise; or it made a beginning
    of them, the call that comes next raised [e], nothing was called after
    it, and the result is [{'error': str(e)}]. *)
Theorem calls_are_the_expected_ones
    (engine : Sqlite3) (db_path : string) (s : State) :
  exists (evs : list Event) (tables : list Row) (infos : list (list Row))
         (v : PyVal),
    log (snd (analyze_database_schema db_path s)) = log s ++ evs /\
    fst (analyze_database_schema db_path s) = Ok v /\
    length infos = length tables /\
    ((evs = expected_calls db_path tables infos /\
      if readable tables infos
      then v = success_result (refs tables infos) (len tables)
      else error_shape v) \/
     (exists pre c ok rest e,
        expected_calls db_path tables infos = pre ++ mkEvent c ok :: rest /\
        evs = pre ++ [mkEvent c (Raised e)] /\
        v = error_result (str e))).
Proof.
  unfold analyze_database_schema, try_except.
  destruct (analyze_try_runs db_path s) as (evs & Hlog & _ & _ & _ & Hok).
  destruct (analyze_try_exact db_path s)
    as (evs' & Hlog' & _ & tables & infos & Hlen & H).
  rewrite Hlog in Hlog'. apply app_inv_head in Hlog'. subst evs'.
  destruct (analyze_try db_path s) as [[v | e] s1]; simpl in *.
  - apply outcome_of_ok in H. destruct H as (Hevs & Hread).
    destruct (Hok v eq_refl) as (tables' & infos' & Hlen' & Hevs' & Hv).
    rewrite Hevs, (expected_calls_readable db_path _ _ Hlen Hread) in Hevs'.
    destruct (success_trace_inj db_path _ _ _ _ Hlen Hlen' Hevs') as [<- <-].
    exists evs, tables, infos, v. split; [exact Hlog |].
    split; [reflexivity |]. split; [exact Hlen |]. left.
    split; [exact Hevs |]. rewrite Hread. exact Hv.
  - exists evs, tables, infos, (error_result (str e)). split; [exact Hlog |].
    split; [reflexivity |]. split; [exact Hlen |].
    destruct H as [(Hevs & Hc) | (pre & c & ok & rest & e' & Ht & Hevs & [= <-])].
    + left. split; [exact Hevs |].
      destruct (readable tables infos); [| reflexivity].
      destruct Hc as (a & Hc). discriminate Hc.
    + right. exists pre, c, ok, rest, e. auto.
Qed.

(** X6. The only statements the analyser executes are the catalog query
    and [PRAGMA foreign_key_list(...)]: it never sends a statement that
    writes. *)
Theorem only_reading_statements_are_executed
    (engine : Sqlite3) (db_path : string) (s : State) :
  exists evs : list Event,
    log (snd (analyze_database_schema db_path s)) = log s ++ evs /\
    forall sql : string,
      In (CExecute sql) (map ev_call evs) ->
      sql = catalog_query \/ exists table_name, sql = pragma_query table_name.
Proof.
  destruct (analyze_protocol db_path s)
    as (evs & v & Hlog & _ & (tables & infos & Hlen & Hf) & _).
  exists evs. split; [exact Hlog |]. intros sql Hin.
  apply (success_trace_statements db_path tables infos).
  apply (follows_calls _ evs); assumption.
Qed.

(** X7. The log of a run has a call of [close] that went well exactly
    when the result is the success shape: no failure path closes the
    connection. *)
Theorem close_succeeds_iff_success
    (engine : Sqlite3) (db_path : string) (s : State) :
  exists (evs : list Event) (v : PyVal),
    log (snd (analyze_database_schema db_path s)) = log s ++ evs /\
    fst (analyze_database_schema db_path s) = Ok v /\
    (In close_ok evs <-> success_shape v).
Proof.
  destruct (analyze_protocol db_path s) as (evs & v & Hlog & Hr & _ & H).
  exists evs, v. split; [exact Hlog |]. split; [exact Hr |].
  destruct H as [(tables & infos & _ & -> & _ & _ & ->) | (Hno & e & ->)].
  - split; [reflexivity |]. intros _. unfold success_trace.
    rewrite !in_app_iff. right. right. left. reflexivity.
  - split; [contradiction | discriminate].
Qed.

(** X8. Whatever the engine does, the entry point returns without an
    exception, and what it writes to standard output is the JSON text of
    the analyser's result and a line break, nothing else. *)
Theorem script_prints_once_and_returns (engine : Sqlite3) (s : State) :
  exists v : PyVal,
    fst (analyze_database_schema "database.db" s) = Ok v /\
    fst (main s) = Ok tt /\
    stdout (snd (main s)) = stdout s +:+ json_dumps_indent2 v +:+ newline /\
    log (snd (main s)) = log (snd (analyze_database_schema "database.db" s)).
Proof.
  destruct (analyze_protocol "database.db" s) as (evs & v & _ & Hr & _).
  destruct (analyze_run "database.db" s) as (_ & _ & Hout & _).
  exists v. split; [exact Hr |]. unfold main, bind.
  destruct (analyze_database_schema "database.db" s) as [r s1].
  simpl in Hr, Hout. subst r. simpl. rewrite Hout. repeat split.
Qed.

(** ** Files, connections and declared foreign keys on the model *)

Section ModelAccounts.














End ModelAccounts.






(** The instances of X1 to X4 on the database [shop]. *)
Lemma table_count_is_number_of_rows_witness :
  exists (tables : list Row) (infos : list (list Row)),
    log (snd (analyze_database_schema "database.db" (fresh (holding shop))))
      = log (fresh (holding shop)) ++ success_trace "database.db" tables infos /\
    field "table_count" shop_result = Some (PInt (len tables)).
Proof.
  apply (table_count_is_number_of_rows sqlite3 "database.db"
           (fresh (holding shop)) shop_result).
  - vm_compute. reflexivity.
  - vm_compute. reflexivity.
Defined.

Lemma found_fk_count_is_number_of_rows_witness :
  exists (tables : list Row) (infos : list (list Row)),
    log (snd (analyze_database_schema "database.db" (fresh (holding shop))))
      = log (fresh (holding shop)) ++ success_trace "database.db" tables infos /\
    length infos = length tables /\
    field "found_fk_count" shop_result = Some (PInt (total_rows infos)).
Proof.
  apply (found_fk_count_is_number_of_rows sqlite3 "database.db"
           (fresh (holding shop)) shop_result).
  - vm_compute. reflexivity.
  - vm_compute. reflexivity.
Defined.

Lemma entries_have_four_scalar_fields_witness :
  exists d : list (string * PyVal),
    orders_ref = PDict d /\
    keys d = ref_keys /\
    Forall (fun item => scalar (snd item)) d.
Proof.
  apply (entries_have_four_scalar_fields sqlite3 "database.db"
           (fresh (holding shop)) shop_result [orders_ref] orders_ref).
  - vm_compute. reflexivity.
  - vm_compute. reflexivity.
  - left. reflexivity.
Defined.

Lemma rows_have_the_columns_read_witness :
  exists (tables : list Row) (infos : list (list Row)),
    log (snd (analyze_database_schema "database.db" (fresh (holding shop))))
      = log (fresh (holding shop)) ++ success_trace "database.db" tables infos /\
    Forall (fun row => length row = 2%nat) tables /\
    Forall (Forall (fun fk => (5 <= length fk)%nat)) infos.
Proof.
  apply (rows_have_the_columns_read sqlite3 "database.db"
           (fresh (holding shop)) shop_result).
  - vm_compute. reflexivity.
  - vm_compute. reflexivity.
Defined.
